(** * Restriction-enzyme catalog exporter: scripts/generate.py

    A shallow embedding of the script that reads the enzyme catalog of
    Bio.Restriction, reshapes every entry into a plain dictionary, sorts the
    dictionaries by name and prints them as a TypeScript constant.

    - Python values are an inductive type [PyVal] (None, bool, int, str, list
      and dict with string keys); a [str] is a [string] whose characters are
      read as the code points 0..255, compared by code point.
    - Attribute access, [<], [abs] and [list(...)] can raise; raising code
      lives in the [result] monad.
    - [json.dumps(..., indent=2)] is modelled from the behaviour of the
      standard encoder (ensure_ascii on, separators "," and ": "). *)

From Stdlib Require Import ZArith List String Ascii Bool Lia Sorted Permutation.
From Stdlib Require Import Decimal DecimalString DecimalZ.
From Stdlib Require DecimalFacts DecimalPos.
Import ListNotations.

Local Open Scope string_scope.
Local Open Scope Z_scope.

#[local] Set Warnings "-register-all".

(* ================================================================= *)
(** ** Python values and exceptions *)

Inductive PyVal : Type :=
| VNone
| VBool (b : bool)
| VInt (z : Z)
| VStr (s : string)
| VList (l : list PyVal)
| VDict (d : list (string * PyVal)).

(** [OtherError] stands for every exception class that the handler of
    [main] does not name. *)
Inductive PyExc : Set :=
| AttributeError
| TypeError
| OtherError.

Inductive result (A : Type) : Type :=
| Ok (a : A)
| Raise (e : PyExc).

Arguments Ok {A} a.
Arguments Raise {A} e.

Definition bind {A B : Type} (c : result A) (k : A -> result B) : result B :=
  match c with
  | Ok a => k a
  | Raise e => Raise e
  end.

Notation "x <- c ;; k" := (bind c (fun x => k))
  (at level 61, c at next level, right associativity).

(** The nested occurrences of [PyVal] need an induction principle with the
    hypotheses for the elements spelled out. *)
Section PyVal_induction.
Variable P : PyVal -> Prop.
Hypothesis HNone : P VNone.
Hypothesis HBool : forall b, P (VBool b).
Hypothesis HInt : forall z, P (VInt z).
Hypothesis HStr : forall s, P (VStr s).
Hypothesis HList : forall l, Forall P l -> P (VList l).
Hypothesis HDict : forall d, Forall (fun kv => P (snd kv)) d -> P (VDict d).

Fixpoint PyVal_nested_ind (v : PyVal) : P v :=
  match v with
  | VNone => HNone
  | VBool b => HBool b
  | VInt z => HInt z
  | VStr s => HStr s
  | VList l =>
      HList l
        ((fix all (l : list PyVal) : Forall P l :=
            match l with
            | [] => Forall_nil P
            | x :: r => Forall_cons x (PyVal_nested_ind x) (all r)
            end) l)
  | VDict d =>
      HDict d
        ((fix all (d : list (string * PyVal))
            : Forall (fun kv => P (snd kv)) d :=
            match d with
            | [] => Forall_nil _
            | kv :: r =>
                Forall_cons kv (PyVal_nested_ind (snd kv)) (all r)
            end) d)
  end.
End PyVal_induction.

(* ----------------------------------------------------------------- *)
(** *** The operators the script applies to attribute values *)

(** [v is None] *)
Definition is_None (v : PyVal) : bool :=
  match v with
  | VNone => true
  | _ => false
  end.

(** [v == 0]: bool is a subclass of int, every other type differs from 0. *)
Definition eq_zero (v : PyVal) : bool :=
  match v with
  | VInt z => z =? 0
  | VBool b => negb b
  | _ => false
  end.

(** [v < 0]: ordering against an int is defined for int and bool only. *)
Definition lt_zero (v : PyVal) : result bool :=
  match v with
  | VInt z => Ok (z <? 0)
  | VBool _ => Ok false
  | _ => Raise TypeError
  end.

(** [abs(v)] *)
Definition py_abs (v : PyVal) : result PyVal :=
  match v with
  | VInt z => Ok (VInt (Z.abs z))
  | VBool b => Ok (VInt (if b then 1 else 0))
  | _ => Raise TypeError
  end.

(** Truth value of [v], as tested by [... if v else ...]. *)
Definition truthy (v : PyVal) : bool :=
  match v with
  | VNone => false
  | VBool b => b
  | VInt z => negb (z =? 0)
  | VStr s => negb (String.eqb s EmptyString)
  | VList l => match l with [] => false | _ => true end
  | VDict d => match d with [] => false | _ => true end
  end.

(** The characters of a string, each as a string of length one. *)
Fixpoint chars (s : string) : list PyVal :=
  match s with
  | EmptyString => []
  | String c r => VStr (String c EmptyString) :: chars r
  end.

(** [list(v)]: iterates a str by character, a list by element, a dict by
    key; the other types are not iterable. *)
Definition py_list (v : PyVal) : result (list PyVal) :=
  match v with
  | VStr s => Ok (chars s)
  | VList l => Ok l
  | VDict d => Ok (map (fun kv => VStr (fst kv)) d)
  | _ => Raise TypeError
  end.

(* ================================================================= *)
(** ** Catalog entries *)

(** An entry of [AllEnzymes]: what [str(enzyme)] gives and the attributes
    the object carries. *)
Record Enzyme : Type := {
  str : string;
  attrs : list (string * PyVal)
}.

Fixpoint lookup (a : string) (d : list (string * PyVal)) : option PyVal :=
  match d with
  | [] => None
  | (k, v) :: r => if String.eqb k a then Some v else lookup a r
  end.

(** [enzyme.a] *)
Definition getattr (enzyme : Enzyme) (a : string) : result PyVal :=
  match lookup a (attrs enzyme) with
  | Some v => Ok v
  | None => Raise AttributeError
  end.

(* ================================================================= *)
(** ** get_overhang_info *)

Definition get_overhang_info (enzyme : Enzyme) : result (PyVal * string) :=
  ovhg <- getattr enzyme "ovhg" ;;
  if eq_zero ovhg then Ok (VInt 0, "blunt")
  else
    neg <- lt_zero ovhg ;;
    if neg : bool then
      len <- py_abs ovhg ;;
      Ok (len, "5'")
    else Ok (ovhg, "3'").

(* ================================================================= *)
(** ** extract_enzyme_data *)

(** The dictionary built for one enzyme; [items] lists its entries in the
    order of the dict display. *)
Record enzyme_data : Type := {
  name : string;
  site : PyVal;
  forwardCut : PyVal;
  reverseCut : PyVal;
  overhangLength : PyVal;
  overhangType : string;
  suppliers : list PyVal
}.

Definition items (e : enzyme_data) : list (string * PyVal) :=
  [ ("name", VStr (name e));
    ("site", site e);
    ("forwardCut", forwardCut e);
    ("reverseCut", reverseCut e);
    ("overhangLength", overhangLength e);
    ("overhangType", VStr (overhangType e));
    ("suppliers", VList (suppliers e)) ].

Definition extract_enzyme_data (enzyme : Enzyme) : result enzyme_data :=
  info <- get_overhang_info enzyme ;;
  let '(overhang_length, overhang_type) := info in
  s <- getattr enzyme "site" ;;
  f5 <- getattr enzyme "fst5" ;;
  f3 <- getattr enzyme "fst3" ;;
  cond <- getattr enzyme "suppl" ;;
  sup <- (if truthy cond
          then (su <- getattr enzyme "suppl" ;; py_list su)
          else Ok []) ;;
  Ok {| name := str enzyme;
        site := s;
        forwardCut := f5;
        reverseCut := f3;
        overhangLength := overhang_length;
        overhangType := overhang_type;
        suppliers := sup |}.

(* ================================================================= *)
(** ** json.dumps(obj, indent=2) *)

Definition dquote : ascii := "034"%char.
Definition backslash : ascii := "092"%char.
Definition newline : string := String "010"%char EmptyString.

(** [repr] of an int: decimal digits, with a minus sign when negative. *)
Definition repr_int (z : Z) : string :=
  NilZero.string_of_int (Z.to_int z).

Definition hex_digit (n : N) : ascii :=
  match n with
  | 0%N => "0" | 1%N => "1" | 2%N => "2" | 3%N => "3"
  | 4%N => "4" | 5%N => "5" | 6%N => "6" | 7%N => "7"
  | 8%N => "8" | 9%N => "9" | 10%N => "a" | 11%N => "b"
  | 12%N => "c" | 13%N => "d" | 14%N => "e" | _ => "f"
  end%char.

(** ['{0:04x}'.format(n)] for [n < 0x10000]. *)
Definition hex4 (n : N) : string :=
  String (hex_digit (N.modulo (N.div n 4096) 16))
    (String (hex_digit (N.modulo (N.div n 256) 16))
       (String (hex_digit (N.modulo (N.div n 16) 16))
          (String (hex_digit (N.modulo n 16)) EmptyString))).

(** The replacement of one character under ensure_ascii: the short escapes
    of ESCAPE_DCT, the printable ASCII characters unchanged, and a \u escape
    for everything else. *)
Definition escape_char (c : ascii) : string :=
  match c with
  | "034"%char => String backslash (String dquote EmptyString)
  | "092"%char => String backslash (String backslash EmptyString)
  | "008"%char => String backslash "b"
  | "012"%char => String backslash "f"
  | "010"%char => String backslash "n"
  | "013"%char => String backslash "r"
  | "009"%char => String backslash "t"
  | _ =>
      let n := N_of_ascii c in
      if ((32 <=? n) && (n <=? 126))%N then String c EmptyString
      else String backslash (String "u"%char (hex4 n))
  end.

Fixpoint escape_body (s : string) : string :=
  match s with
  | EmptyString => EmptyString
  | String c r => escape_char c ++ escape_body r
  end.

Definition encode_basestring_ascii (s : string) : string :=
  String dquote (escape_body s ++ String dquote EmptyString).

Fixpoint indent_str (level : nat) : string :=
  match level with
  | O => EmptyString
  | S n => "  " ++ indent_str n
  end.

Definition newline_indent (level : nat) : string :=
  newline ++ indent_str level.

(** The chunks of [_iterencode], concatenated, at indentation [level]. *)
Fixpoint iterencode (level : nat) (v : PyVal) : string :=
  match v with
  | VNone => "null"
  | VBool true => "true"
  | VBool false => "false"
  | VInt z => repr_int z
  | VStr s => encode_basestring_ascii s
  | VList [] => "[]"
  | VList l =>
      "[" ++ newline_indent (S level)
        ++ String.concat ("," ++ newline_indent (S level))
             (map (iterencode (S level)) l)
        ++ newline_indent level ++ "]"
  | VDict [] => "{}"
  | VDict d =>
      "{" ++ newline_indent (S level)
        ++ String.concat ("," ++ newline_indent (S level))
             (map (fun kv =>
                     encode_basestring_ascii (fst kv) ++ ": "
                       ++ iterencode (S level) (snd kv)) d)
        ++ newline_indent level ++ "}"
  end.

Definition json_dumps (v : PyVal) : string := iterencode 0 v.

(* ================================================================= *)
(** ** generate_typescript *)

Definition header_lines : list string :=
  [ "// Auto-generated from BioPython Bio.Restriction - DO NOT EDIT";
    "// Regenerate with: uv run generate-enzymes";
    EmptyString;
    "import type { RestrictionEnzyme } from "
      ++ String dquote ("./types.js" ++ String dquote ";");
    EmptyString;
    "export const enzymes: RestrictionEnzyme[] = " ].

Definition as_dict (e : enzyme_data) : PyVal := VDict (items e).

Definition generate_typescript (enzymes : list enzyme_data) : string :=
  let lines := header_lines in
  let json_str := json_dumps (VList (map as_dict enzymes)) in
  let lines := (lines ++ [(json_str ++ ";")%string])%list in
  String.concat newline lines ++ newline.

(* ================================================================= *)
(** ** main *)

(** [list.sort(key=...)]: the sort is stable and compares keys with [<]
    only.  A stable sort has one possible result, which insertion from the
    right computes: an element goes in front of the first element whose key
    is not smaller than its own. *)
Section list_sort.
Context {A K : Type}.
Variable lt : K -> K -> bool.
Variable key : A -> K.

Fixpoint insert (x : A) (l : list A) : list A :=
  match l with
  | [] => [x]
  | y :: r => if lt (key y) (key x) then y :: insert x r else x :: y :: r
  end.

Fixpoint list_sort (l : list A) : list A :=
  match l with
  | [] => []
  | x :: r => insert x (list_sort r)
  end.
End list_sort.

(** The body of the [try] block for one enzyme: [None] is [continue]. *)
Definition try_body (enzyme : Enzyme) : result (option enzyme_data) :=
  f5 <- getattr enzyme "fst5" ;;
  if is_None f5 then Ok None
  else
    f3 <- getattr enzyme "fst3" ;;
    if is_None f3 then Ok None
    else
      data <- extract_enzyme_data enzyme ;;
      Ok (Some data).

(** The [for] loop with its handler; [enzymes] is the list built so far. *)
Fixpoint for_loop (all : list Enzyme) (enzymes : list enzyme_data)
  : result (list enzyme_data) :=
  match all with
  | [] => Ok enzymes
  | enzyme :: rest =>
      match try_body enzyme with
      | Ok (Some data) => for_loop rest (enzymes ++ [data])%list
      | Ok None => for_loop rest enzymes
      | Raise AttributeError | Raise TypeError => for_loop rest enzymes
      | Raise e => Raise e
      end
  end.

(** What a run leaves behind: the file it writes and the line it prints. *)
Record Effects : Type := {
  written_path : string;
  written_text : string;
  printed : string
}.

(** The sorted list of dictionaries that [main] serialises. *)
Definition build_catalog (AllEnzymes : list Enzyme)
  : result (list enzyme_data) :=
  enzymes <- for_loop AllEnzymes [] ;;
  Ok (list_sort String.ltb name enzymes).

(** [output_path] is the path computed from the location of the script. *)
Definition main (AllEnzymes : list Enzyme) (output_path : string)
  : result Effects :=
  enzymes <- build_catalog AllEnzymes ;;
  let ts_content := generate_typescript enzymes in
  Ok {| written_path := output_path;
        written_text := ts_content;
        printed := "Generated " ++ output_path ++ " with "
                     ++ repr_int (Z.of_nat (List.length enzymes))
                     ++ " enzymes" ++ newline |}.

(* ================================================================= *)
(** ** Reading the generated file back

    The consumer of the file reads the constant as JSON text.  [parse_value]
    follows the JSON grammar (RFC 8259) for the values [PyVal] has: the three
    literals, integers, strings with their escapes, arrays and objects, with
    insignificant whitespace between tokens.  Numbers with a fraction or an
    exponent and escapes above code point 255 have no [PyVal] and are
    refused. *)

Definition is_ws (c : ascii) : bool :=
  match c with
  | " "%char | "010"%char | "013"%char | "009"%char => true
  | _ => false
  end.

Fixpoint skip_ws (s : string) : string :=
  match s with
  | String c r => if is_ws c then skip_ws r else s
  | EmptyString => s
  end.

(** [eat p s] removes the prefix [p] from [s]. *)
Fixpoint eat (p s : string) : option string :=
  match p, s with
  | EmptyString, _ => Some s
  | String a p', String b s' => if Ascii.eqb a b then eat p' s' else None
  | String _ _, EmptyString => None
  end.

(** The value of a hexadecimal digit, in either case. *)
Definition hex_val (c : ascii) : option N :=
  let n := N_of_ascii c in
  if ((48 <=? n) && (n <=? 57))%N then Some (n - 48)%N
  else if ((97 <=? n) && (n <=? 102))%N then Some (n - 87)%N
  else if ((65 <=? n) && (n <=? 70))%N then Some (n - 55)%N
  else None.

Definition hex4_val (a b c d : ascii) : option N :=
  match hex_val a, hex_val b, hex_val c, hex_val d with
  | Some x, Some y, Some z, Some w =>
      Some (((x * 16 + y) * 16 + z) * 16 + w)%N
  | _, _, _, _ => None
  end.

Definition cons_char (c : ascii) (r : option (string * string))
  : option (string * string) :=
  match r with
  | Some (s, rest) => Some (String c s, rest)
  | None => None
  end.

(** The characters of a string token after its opening quote, up to and
    without the closing quote. *)
Fixpoint scan_string (s : string) : option (string * string) :=
  match s with
  | EmptyString => None
  | String c r =>
      match c with
      | "034"%char => Some (EmptyString, r)
      | "092"%char =>
          match r with
          | String e r1 =>
              match e with
              | "034"%char => cons_char "034" (scan_string r1)
              | "092"%char => cons_char "092" (scan_string r1)
              | "/"%char => cons_char "/" (scan_string r1)
              | "b"%char => cons_char "008" (scan_string r1)
              | "f"%char => cons_char "012" (scan_string r1)
              | "n"%char => cons_char "010" (scan_string r1)
              | "r"%char => cons_char "013" (scan_string r1)
              | "t"%char => cons_char "009" (scan_string r1)
              | "u"%char =>
                  match r1 with
                  | String h1 (String h2 (String h3 (String h4 r2))) =>
                      match hex4_val h1 h2 h3 h4 with
                      | Some n =>
                          if (n <? 256)%N
                          then cons_char (ascii_of_N n) (scan_string r2)
                          else None
                      | None => None
                      end
                  | _ => None
                  end
              | _ => None
              end
          | EmptyString => None
          end
      | _ =>
          if (N_of_ascii c <? 32)%N then None
          else cons_char c (scan_string r)
      end
  end.

Definition digit_of (c : ascii) : option (uint -> uint) :=
  match c with
  | "0" => Some D0 | "1" => Some D1 | "2" => Some D2 | "3" => Some D3
  | "4" => Some D4 | "5" => Some D5 | "6" => Some D6 | "7" => Some D7
  | "8" => Some D8 | "9" => Some D9
  | _ => None
  end%char.

(** The longest run of decimal digits at the head of [s]. *)
Fixpoint scan_digits (s : string) : uint * string :=
  match s with
  | EmptyString => (Nil, s)
  | String c r =>
      match digit_of c with
      | Some D => let (d, rest) := scan_digits r in (D d, rest)
      | None => (Nil, s)
      end
  end.

(** What may follow an integer token: not a fraction, not an exponent. *)
Definition ends_int (s : string) : bool :=
  match s with
  | String "."%char _ | String "e"%char _ | String "E"%char _ => false
  | _ => true
  end.

(** The digits of an integer: at least one, and no leading zero. *)
Definition scan_nat (s : string) : option (Z * string) :=
  let (d, rest) := scan_digits s in
  match d with
  | Nil => None
  | D0 (D0 _ | D1 _ | D2 _ | D3 _ | D4 _ | D5 _ | D6 _ | D7 _ | D8 _ | D9 _) =>
      None
  | _ => if ends_int rest then Some (Z.of_uint d, rest) else None
  end.

Definition scan_int (s : string) : option (Z * string) :=
  match s with
  | String "-"%char r =>
      match scan_nat r with
      | Some (z, rest) => Some (- z, rest)
      | None => None
      end
  | _ => scan_nat s
  end.

(** [next_is c s]: the next token of [s] is the character [c]; gives what
    follows it. *)
Definition next_is (c : ascii) (s : string) : option string :=
  match skip_ws s with
  | String c' r => if Ascii.eqb c c' then Some r else None
  | EmptyString => None
  end.

(** Modelled from the spec: the JSON reader of the round-trip property,
    which the script does not contain.  One value of the JSON grammar, after
    optional whitespace; [fuel] bounds the number of nested calls, and the
    length of the text is always enough. *)
Fixpoint parse_value (fuel : nat) (s : string) : option (PyVal * string) :=
  match fuel with
  | O => None
  | S f =>
      match skip_ws s with
      | EmptyString => None
      | String c r as tok =>
          match c with
          | "n"%char =>
              match eat "ull" r with
              | Some rest => Some (VNone, rest)
              | None => None
              end
          | "t"%char =>
              match eat "rue" r with
              | Some rest => Some (VBool true, rest)
              | None => None
              end
          | "f"%char =>
              match eat "alse" r with
              | Some rest => Some (VBool false, rest)
              | None => None
              end
          | "034"%char =>
              match scan_string r with
              | Some (x, rest) => Some (VStr x, rest)
              | None => None
              end
          | "["%char =>
              match next_is "]" r with
              | Some rest => Some (VList [], rest)
              | None =>
                  match parse_elements f r with
                  | Some (l, rest) => Some (VList l, rest)
                  | None => None
                  end
              end
          | "{"%char =>
              match next_is "}" r with
              | Some rest => Some (VDict [], rest)
              | None =>
                  match parse_members f r with
                  | Some (d, rest) => Some (VDict d, rest)
                  | None => None
                  end
              end
          | _ =>
              match scan_int tok with
              | Some (z, rest) => Some (VInt z, rest)
              | None => None
              end
          end
      end
  end

(** value ("," value)* "]" *)
with parse_elements (fuel : nat) (s : string)
  : option (list PyVal * string) :=
  match fuel with
  | O => None
  | S f =>
      match parse_value f s with
      | Some (v, r) =>
          match next_is "," r with
          | Some r' =>
              match parse_elements f r' with
              | Some (l, rest) => Some (v :: l, rest)
              | None => None
              end
          | None =>
              match next_is "]" r with
              | Some rest => Some ([v], rest)
              | None => None
              end
          end
      | None => None
      end
  end

(** string ":" value ("," string ":" value)* "}" *)
with parse_members (fuel : nat) (s : string)
  : option (list (string * PyVal) * string) :=
  match fuel with
  | O => None
  | S f =>
      match next_is dquote s with
      | Some r =>
          match scan_string r with
          | Some (k, r1) =>
              match next_is ":" r1 with
              | Some r2 =>
                  match parse_value f r2 with
                  | Some (v, r3) =>
                      match next_is "," r3 with
                      | Some r' =>
                          match parse_members f r' with
                          | Some (d, rest) => Some ((k, v) :: d, rest)
                          | None => None
                          end
                      | None =>
                          match next_is "}" r3 with
                          | Some rest => Some ([(k, v)], rest)
                          | None => None
                          end
                      end
                  | None => None
                  end
              | None => None
              end
          | None => None
          end
      | None => None
      end
  end.

(** Modelled from the spec: parsing a whole JSON text, which the script
    does not contain.  One value, then nothing but whitespace. *)
Definition json_loads (s : string) : option PyVal :=
  match parse_value (String.length s) s with
  | Some (v, rest) =>
      match skip_ws rest with
      | EmptyString => Some v
      | String _ _ => None
      end
  | None => None
  end.

(** [strip_suffix suf s] removes [suf] from the end of [s]. *)
Fixpoint strip_suffix (suf s : string) : option string :=
  if String.eqb s suf then Some EmptyString
  else
    match s with
    | EmptyString => None
    | String c r =>
        match strip_suffix suf r with
        | Some x => Some (String c x)
        | None => None
        end
    end.

(** Modelled from the spec: the JSON array embedded in the generated file,
    which the script never extracts.  It is the text between the declaration
    line and the closing semicolon. *)
Definition embedded_json (ts : string) : option string :=
  match eat (String.concat newline header_lines ++ newline) ts with
  | Some body => strip_suffix (";" ++ newline) body
  | None => None
  end.

(* ================================================================= *)
(** ** Sample entries and auxiliary notions for the statements *)

Definition EcoRI : Enzyme :=
  {| str := "EcoRI";
     attrs := [("site", VStr "GAATTC"); ("fst5", VInt 1); ("fst3", VInt (-1));
               ("ovhg", VInt (-4)); ("suppl", VList [VStr "N"; VStr "R"])] |}.

Definition PstI : Enzyme :=
  {| str := "PstI";
     attrs := [("site", VStr "CTGCAG"); ("fst5", VInt 5); ("fst3", VInt 1);
               ("ovhg", VInt 4); ("suppl", VList [])] |}.

Definition SmaI : Enzyme :=
  {| str := "SmaI";
     attrs := [("site", VStr "CCCGGG"); ("fst5", VInt 3); ("fst3", VInt 3);
               ("ovhg", VInt 0); ("suppl", VNone)] |}.

(** An entry whose forward cut is None. *)
Definition NoCut : Enzyme :=
  {| str := "AasI";
     attrs := [("site", VStr "GACNNNNNNGTC"); ("fst5", VNone);
               ("fst3", VInt 1); ("ovhg", VNone); ("suppl", VList [])] |}.

(** An entry without the attribute [site]. *)
Definition NoSite : Enzyme :=
  {| str := "XxxI";
     attrs := [("fst5", VInt 1); ("fst3", VInt (-1)); ("ovhg", VInt (-4));
               ("suppl", VList [])] |}.

(** An entry without the attribute [suppl]. *)
Definition NoSuppl : Enzyme :=
  {| str := "YyyI";
     attrs := [("site", VStr "GAATTC"); ("fst5", VInt 1); ("fst3", VInt (-1));
               ("ovhg", VInt (-4))] |}.

(** What may follow the digits of an integer for the token to end there. *)
Definition closes_int (rest : string) : bool :=
  ends_int rest &&
  match rest with
  | String c _ => match digit_of c with Some _ => false | None => true end
  | EmptyString => true
  end.

(** The fuel that reading a value back takes: one unit for a value, one
    more for each element of a list or dict on top of what the element
    takes. *)
Fixpoint need (v : PyVal) : nat :=
  match v with
  | VList l => S (fold_right (fun x n => S (Nat.max (need x) n)) O l)
  | VDict d => S (fold_right (fun kv n => S (Nat.max (need (snd kv)) n)) O d)
  | _ => 1%nat
  end.

(** [s] begins with a character that is neither whitespace nor a closing
    bracket. *)
Definition opens_value (s : string) : bool :=
  match s with
  | String c _ =>
      negb (is_ws c) && negb (Ascii.eqb "]" c) && negb (Ascii.eqb "}" c)
  | EmptyString => false
  end.

(** The layout of the file as the specification words it: [record_text]
    is one object of the array, [array_text] the array and [file_text] the
    whole file. *)
Definition quoted (s : string) : string :=
  String dquote (s ++ String dquote EmptyString).

Definition record_text (e : enzyme_data) : string :=
  "  {" ++ newline
    ++ "    " ++ quoted "name" ++ ": "
    ++ encode_basestring_ascii (name e) ++ "," ++ newline
    ++ "    " ++ quoted "site" ++ ": "
    ++ iterencode 2 (site e) ++ "," ++ newline
    ++ "    " ++ quoted "forwardCut" ++ ": "
    ++ iterencode 2 (forwardCut e) ++ "," ++ newline
    ++ "    " ++ quoted "reverseCut" ++ ": "
    ++ iterencode 2 (reverseCut e) ++ "," ++ newline
    ++ "    " ++ quoted "overhangLength" ++ ": "
    ++ iterencode 2 (overhangLength e) ++ "," ++ newline
    ++ "    " ++ quoted "overhangType" ++ ": "
    ++ encode_basestring_ascii (overhangType e) ++ "," ++ newline
    ++ "    " ++ quoted "suppliers" ++ ": "
    ++ iterencode 2 (VList (suppliers e)) ++ newline
    ++ "  }".

Definition array_text (enzymes : list enzyme_data) : string :=
  match enzymes with
  | [] => "[]"
  | _ =>
      "[" ++ newline
        ++ String.concat ("," ++ newline) (map record_text enzymes)
        ++ newline ++ "]"
  end.

Definition file_text (enzymes : list enzyme_data) : string :=
  "// Auto-generated from BioPython Bio.Restriction - DO NOT EDIT" ++ newline
    ++ "// Regenerate with: uv run generate-enzymes" ++ newline
    ++ newline
    ++ "import type { RestrictionEnzyme } from "
    ++ String dquote ("./types.js" ++ String dquote ";") ++ newline
    ++ newline
    ++ "export const enzymes: RestrictionEnzyme[] = " ++ newline
    ++ array_text enzymes ++ ";" ++ newline.

(** The text of one member of a dict, as [iterencode] prints it. *)
Definition member_text (level : nat) (kv : string * PyVal) : string :=
  encode_basestring_ascii (fst kv) ++ ": " ++ iterencode (S level) (snd kv).

(** Reading the text of [v] back gives [v] and leaves what follows it,
    whenever the fuel covers [need v]. *)
Definition reads_back (v : PyVal) : Prop :=
  forall level rest f,
    (need v <= f)%nat -> closes_int rest = true ->
    parse_value f (iterencode level v ++ rest) = Some (v, rest).

(** What one pass of the loop appends to [enzymes]. *)
Definition keeps (enzyme : Enzyme) : list enzyme_data :=
  match try_body enzyme with
  | Ok (Some data) => [data]
  | _ => []
  end.

(** The exceptions named by the handler of [main]. *)
Definition caught (e : PyExc) : Prop := e = AttributeError \/ e = TypeError.

(** Ascending order of keys, and of names. *)
Definition key_le {A : Type} (key : A -> string) (a b : A) : Prop :=
  String.leb (key a) (key b) = true.

Definition name_le : enzyme_data -> enzyme_data -> Prop := key_le name.



(** A newline or a printable ASCII character, and a text made of those. *)
Definition printable (c : ascii) : bool :=
  let n := N_of_ascii c in
  ((n =? 10) || ((32 <=? n) && (n <=? 126)))%N.

Fixpoint all_printable (s : string) : bool :=
  match s with
  | EmptyString => true
  | String c r => printable c && all_printable r
  end.

(** The records of a list that carry the name [k], in the order of the
    list. *)
Definition named (k : string) (l : list enzyme_data) : list enzyme_data :=
  filter (fun e => String.eqb (name e) k) l.


(* ================================================================= *)
(** ** Strings *)

Lemma append_assoc (a b c : string) : (a ++ b) ++ c = a ++ (b ++ c).
Proof. induction a as [|x a IH]; simpl; [reflexivity | now rewrite IH]. Qed.

Lemma append_empty_r (a : string) : a ++ EmptyString = a.
Proof. induction a as [|x a IH]; simpl; [reflexivity | now rewrite IH]. Qed.

Lemma length_append (a b : string) :
  String.length (a ++ b) = (String.length a + String.length b)%nat.
Proof. induction a as [|x a IH]; simpl; [reflexivity | now rewrite IH]. Qed.

Lemma ascii_compare_refl (a : ascii) : Ascii.compare a a = Eq.
Proof. unfold Ascii.compare. apply N.compare_refl. Qed.

Lemma string_leb_refl (a : string) : String.leb a a = true.
Proof.
  unfold String.leb.
  assert (H : String.compare a a = Eq).
  { induction a as [|x a IH]; simpl; [reflexivity|].
    now rewrite ascii_compare_refl. }
  now rewrite H.
Qed.

Lemma string_leb_trans (a b c : string) :
  String.leb a b = true -> String.leb b c = true -> String.leb a c = true.
Proof.
  unfold String.leb. revert b c.
  induction a as [|x a IH]; intros [|y b] [|z c]; simpl;
    try reflexivity; try discriminate.
  unfold Ascii.compare.
  destruct (N.compare_spec (N_of_ascii x) (N_of_ascii y)) as [E1|L1|G1];
    destruct (N.compare_spec (N_of_ascii y) (N_of_ascii z)) as [E2|L2|G2];
    try discriminate; intros H1 H2.
  - rewrite E1, E2, N.compare_refl. now apply IH with b.
  - rewrite E1. now apply N.compare_lt_iff in L2; rewrite L2.
  - rewrite <- E2. now apply N.compare_lt_iff in L1; rewrite L1.
  - assert (L : (N_of_ascii x < N_of_ascii z)%N) by lia.
    apply N.compare_lt_iff in L. now rewrite L.
Qed.

Lemma string_ltb_false_leb (a b : string) :
  String.ltb a b = false -> String.leb b a = true.
Proof.
  unfold String.ltb, String.leb. rewrite (String.compare_antisym a b).
  now destruct (String.compare b a).
Qed.

Lemma string_ltb_leb (a b : string) :
  String.ltb a b = true -> String.leb a b = true.
Proof.
  unfold String.ltb, String.leb. now destruct (String.compare a b).
Qed.

(* ================================================================= *)
(** ** The sort *)

Section sort_by_string_key.
Context {A : Type}.
Variable key : A -> string.

Lemma insert_perm (x : A) (l : list A) :
  Permutation (x :: l) (insert String.ltb key x l).
Proof.
  induction l as [|y r IH]; simpl; [constructor; constructor|].
  destruct (String.ltb (key y) (key x)).
  - eapply perm_trans; [apply perm_swap|]. now constructor.
  - apply Permutation_refl.
Qed.

Lemma list_sort_perm (l : list A) :
  Permutation l (list_sort String.ltb key l).
Proof.
  induction l as [|x r IH]; simpl; [constructor|].
  eapply perm_trans; [|apply insert_perm]. now constructor.
Qed.

Lemma insert_sorted (x : A) (l : list A) :
  StronglySorted (key_le key) l -> StronglySorted (key_le key) (insert String.ltb key x l).
Proof.
  induction 1 as [|y r Hs IH Hall]; simpl.
  - repeat constructor.
  - destruct (String.ltb (key y) (key x)) eqn:E.
    + constructor; [exact IH|].
      eapply Permutation_Forall; [apply insert_perm|].
      constructor; [now apply string_ltb_leb | exact Hall].
    + apply string_ltb_false_leb in E.
      constructor; [now constructor|].
      constructor; [exact E|].
      eapply Forall_impl; [|exact Hall].
      intros z Hz. unfold key_le in *. now apply string_leb_trans with (key y).
Qed.

Lemma list_sort_sorted (l : list A) :
  StronglySorted (key_le key) (list_sort String.ltb key l).
Proof.
  induction l as [|x r IH]; simpl; [constructor | now apply insert_sorted].
Qed.

(** Stability: entries with the same key keep their relative order. *)
Lemma insert_stable (k : string) (x : A) (l : list A) :
  StronglySorted (key_le key) l ->
  filter (fun a => String.eqb (key a) k) (insert String.ltb key x l)
  = filter (fun a => String.eqb (key a) k) (x :: l).
Proof.
  induction 1 as [|y r Hs IH Hall]; [reflexivity|].
  cbn [insert]. destruct (String.ltb (key y) (key x)) eqn:E;
    [|reflexivity].
  cbn [filter] in *. rewrite IH.
  destruct (String.eqb (key x) k) eqn:Ex;
    destruct (String.eqb (key y) k) eqn:Ey; try reflexivity.
  apply String.eqb_eq in Ex, Ey. rewrite Ex, Ey in E.
  unfold String.ltb in E.
  assert (Hk : String.compare k k = Eq).
  { pose proof (string_leb_refl k) as R. unfold String.leb in R.
    pose proof (String.compare_antisym k k) as S.
    destruct (String.compare k k); try reflexivity; discriminate. }
  rewrite Hk in E. discriminate.
Qed.

Lemma list_sort_stable (k : string) (l : list A) :
  filter (fun a => String.eqb (key a) k) (list_sort String.ltb key l)
  = filter (fun a => String.eqb (key a) k) l.
Proof.
  induction l as [|x r IH]; [reflexivity|].
  cbn [list_sort]. rewrite insert_stable by apply list_sort_sorted.
  cbn [filter]. now rewrite IH.
Qed.

(** Two sorted arrangements of the same entries coincide when no key
    occurs twice. *)
Lemma sorted_perm_unique (l1 l2 : list A) :
  NoDup (map key l1) ->
  StronglySorted (key_le key) l1 -> StronglySorted (key_le key) l2 ->
  Permutation l1 l2 -> l1 = l2.
Proof.
  revert l2. induction l1 as [|a r1 IH]; intros l2 Hnd S1 S2 HP.
  - now apply Permutation_nil in HP.
  - destruct l2 as [|b r2];
      [apply Permutation_sym, Permutation_nil in HP; discriminate|].
    inversion S1 as [|? ? S1' F1]; subst.
    inversion S2 as [|? ? S2' F2]; subst.
    inversion Hnd as [|? ? Hnotin Hnd']; subst.
    assert (Hab : a = b).
    { assert (Ha : In a (b :: r2))
        by (eapply Permutation_in; [exact HP | now left]).
      assert (Hb : In b (a :: r1))
        by (eapply Permutation_in;
            [apply Permutation_sym; exact HP | now left]).
      destruct Ha as [Ha|Ha]; [now symmetry|].
      destruct Hb as [Hb|Hb]; [exact Hb|].
      exfalso. apply Hnotin.
      rewrite Forall_forall in F1, F2.
      assert (Hk : key a = key b)
        by (apply String.leb_antisym; [now apply F1 | now apply F2]).
      rewrite Hk. now apply in_map. }
    subst b. f_equal. apply IH; try assumption.
    now apply Permutation_cons_inv with a.
Qed.
End sort_by_string_key.

(* ================================================================= *)
(** ** Which exceptions the extraction can raise *)

Lemma bind_raise {A B : Type} (c : result A) (k : A -> result B) (e : PyExc) :
  bind c k = Raise e ->
  c = Raise e \/ exists a, c = Ok a /\ k a = Raise e.
Proof.
  destruct c as [a|e']; simpl; intros H; [right; eauto|].
  injection H as ->. now left.
Qed.

Lemma getattr_raise (enzyme : Enzyme) (a : string) (e : PyExc) :
  getattr enzyme a = Raise e -> caught e.
Proof.
  unfold getattr. destruct (lookup a (attrs enzyme)); intros [= <-].
  now left.
Qed.

Lemma lt_zero_raise (v : PyVal) (e : PyExc) :
  lt_zero v = Raise e -> caught e.
Proof. destruct v; simpl; intros [= <-]; now right. Qed.

Lemma py_abs_raise (v : PyVal) (e : PyExc) :
  py_abs v = Raise e -> caught e.
Proof. destruct v; simpl; intros [= <-]; now right. Qed.

Lemma py_list_raise (v : PyVal) (e : PyExc) :
  py_list v = Raise e -> caught e.
Proof. destruct v; simpl; intros [= <-]; now right. Qed.

Create HintDb raises.

#[local] Hint Resolve getattr_raise lt_zero_raise py_abs_raise py_list_raise
  : raises.

(** Splits a raising [bind] until the call that raised is exposed. *)
Ltac raising H :=
  repeat
    (let a := fresh "a" in
     let Ha := fresh "Ha" in
     apply bind_raise in H;
     destruct H as [H | (a & Ha & H)]; [solve [eauto with raises] | ];
     cbv beta in H).

Lemma get_overhang_info_raise (enzyme : Enzyme) (e : PyExc) :
  get_overhang_info enzyme = Raise e -> caught e.
Proof.
  unfold get_overhang_info. intros H. raising H.
  destruct (eq_zero a); [discriminate|]. raising H.
  destruct a0; [|discriminate]. raising H. discriminate.
Qed.

#[local] Hint Resolve get_overhang_info_raise : raises.

Lemma extract_enzyme_data_raise (enzyme : Enzyme) (e : PyExc) :
  extract_enzyme_data enzyme = Raise e -> caught e.
Proof.
  unfold extract_enzyme_data. intros H.
  apply bind_raise in H. destruct H as [H | ([len ty] & _ & H)];
    [eauto with raises|].
  raising H. apply bind_raise in H. destruct H as [H | (sup & _ & H)].
  - destruct (truthy a2); [|discriminate]. raising H. eauto with raises.
  - discriminate.
Qed.

#[local] Hint Resolve extract_enzyme_data_raise : raises.

Lemma try_body_raise (enzyme : Enzyme) (e : PyExc) :
  try_body enzyme = Raise e -> caught e.
Proof.
  unfold try_body. intros H. raising H.
  destruct (is_None a); [discriminate|]. raising H.
  destruct (is_None a0); [discriminate|]. raising H. discriminate.
Qed.

(* ================================================================= *)
(** ** The loop of [main] *)

Lemma for_loop_keeps (all : list Enzyme) (enzymes : list enzyme_data) :
  for_loop all enzymes = Ok (enzymes ++ flat_map keeps all)%list.
Proof.
  revert enzymes. induction all as [|enzyme rest IH]; intros enzymes; simpl.
  - now rewrite app_nil_r.
  - unfold keeps at 1. destruct (try_body enzyme) as [[data|]|e] eqn:E.
    + rewrite IH, <- app_assoc. reflexivity.
    + apply IH.
    + destruct (try_body_raise _ _ E) as [-> | ->]; apply IH.
Qed.

Lemma build_catalog_keeps (all : list Enzyme) :
  build_catalog all = Ok (list_sort String.ltb name (flat_map keeps all)).
Proof. unfold build_catalog. now rewrite for_loop_keeps. Qed.

Lemma main_keeps (all : list Enzyme) (path : string) :
  main all path =
  let enzymes := list_sort String.ltb name (flat_map keeps all) in
  Ok {| written_path := path;
        written_text := generate_typescript enzymes;
        printed := "Generated " ++ path ++ " with "
                     ++ repr_int (Z.of_nat (List.length enzymes))
                     ++ " enzymes" ++ newline |}.
Proof. unfold main. now rewrite build_catalog_keeps. Qed.

Lemma keeps_skip (enzyme : Enzyme) :
  (forall data, try_body enzyme <> Ok (Some data)) -> keeps enzyme = [].
Proof.
  unfold keeps. intros H. destruct (try_body enzyme) as [[data|]|e];
    [now destruct (H data) | reflexivity | reflexivity].
Qed.

Lemma flat_map_keeps_skip (pre post : list Enzyme) (enzyme : Enzyme) :
  keeps enzyme = [] ->
  flat_map keeps (pre ++ enzyme :: post) = flat_map keeps (pre ++ post).
Proof.
  intros H. rewrite !flat_map_app. simpl. now rewrite H.
Qed.

(** A record that is kept has passed both tests of the guard and carries
    the values the guard saw. *)
Lemma keeps_inv (enzyme : Enzyme) (data : enzyme_data) :
  In data (keeps enzyme) ->
  extract_enzyme_data enzyme = Ok data /\
  getattr enzyme "fst5" = Ok (forwardCut data) /\
  getattr enzyme "fst3" = Ok (reverseCut data) /\
  is_None (forwardCut data) = false /\ is_None (reverseCut data) = false /\
  name data = str enzyme.
Proof.
  unfold keeps, try_body.
  destruct (getattr enzyme "fst5") as [f5|] eqn:E5; simpl; [|tauto].
  destruct (is_None f5) eqn:N5; simpl; [tauto|].
  destruct (getattr enzyme "fst3") as [f3|] eqn:E3; simpl; [|tauto].
  destruct (is_None f3) eqn:N3; simpl; [tauto|].
  destruct (extract_enzyme_data enzyme) as [d|] eqn:Ex; simpl; [|tauto].
  intros [<- | []]. split; [reflexivity|].
  unfold extract_enzyme_data in Ex.
  destruct (get_overhang_info enzyme) as [[len ty]|]; simpl in Ex;
    [|discriminate].
  destruct (getattr enzyme "site"); simpl in Ex; [|discriminate].
  rewrite E5, E3 in Ex. simpl in Ex.
  destruct (getattr enzyme "suppl") as [c|]; simpl in Ex; [|discriminate].
  destruct (if truthy c then _ else _); simpl in Ex; [|discriminate].
  injection Ex as <-. simpl. auto.
Qed.

Lemma keeps_no_cut (enzyme : Enzyme) (a : string) :
  a = "fst5" \/ a = "fst3" ->
  getattr enzyme a = Ok VNone \/ getattr enzyme a = Raise AttributeError ->
  keeps enzyme = [].
Proof.
  intros Ha Hv. unfold keeps, try_body.
  destruct Ha as [-> | ->].
  - destruct Hv as [-> | ->]; reflexivity.
  - destruct (getattr enzyme "fst5") as [f5|e]; simpl; [|reflexivity].
    destruct (is_None f5); [reflexivity|].
    destruct Hv as [-> | ->]; reflexivity.
Qed.

Lemma keeps_extract_raise (enzyme : Enzyme) (e : PyExc) :
  extract_enzyme_data enzyme = Raise e -> keeps enzyme = [].
Proof.
  intros H. unfold keeps, try_body.
  destruct (getattr enzyme "fst5") as [f5|]; simpl; [|reflexivity].
  destruct (is_None f5); [reflexivity|].
  destruct (getattr enzyme "fst3") as [f3|]; simpl; [|reflexivity].
  destruct (is_None f3); [reflexivity|].
  now rewrite H.
Qed.

Lemma is_None_false (v : PyVal) : is_None v = false -> v <> VNone.
Proof. now destruct v. Qed.

Lemma extract_enzyme_data_ok (enzyme : Enzyme) (len : PyVal) (ty : string)
    (s f5 f3 sup : PyVal) (l : list PyVal) :
  get_overhang_info enzyme = Ok (len, ty) ->
  getattr enzyme "site" = Ok s ->
  getattr enzyme "fst5" = Ok f5 ->
  getattr enzyme "fst3" = Ok f3 ->
  getattr enzyme "suppl" = Ok sup ->
  (if truthy sup then py_list sup else Ok []) = Ok l ->
  extract_enzyme_data enzyme =
  Ok {| name := str enzyme; site := s; forwardCut := f5; reverseCut := f3;
        overhangLength := len; overhangType := ty; suppliers := l |}.
Proof.
  intros Ho Hs H5 H3 Hsup Hl. unfold extract_enzyme_data.
  rewrite Ho. simpl. rewrite Hs, H5, H3, Hsup. simpl.
  revert Hl. destruct (truthy sup); simpl; [intros -> | intros [= <-]];
    reflexivity.
Qed.

Lemma get_overhang_info_of_int (enzyme : Enzyme) (s : Z) :
  getattr enzyme "ovhg" = Ok (VInt s) ->
  get_overhang_info enzyme =
  Ok (VInt (Z.abs s),
      if s =? 0 then "blunt" else if s <? 0 then "5'" else "3'").
Proof.
  intros H. unfold get_overhang_info. rewrite H. simpl.
  destruct (Z.eqb_spec s 0) as [->|Hn]; [reflexivity|]. simpl.
  destruct (Z.ltb_spec s 0); simpl; [reflexivity|].
  now rewrite Z.abs_eq.
Qed.

(* ================================================================= *)
(** ** The overhang of an integer stagger *)

(** C1. For every enzyme whose [ovhg] is an integer [s], get_overhang_info
    returns (it never raises): [(0, "blunt")] when [s] is 0,
    [(abs(s), "5'")] when [s] is negative and [(s, "3'")] when [s] is
    positive; so the length is never negative and the type is "blunt" iff
    [s = 0], "5'" iff [s < 0] and "3'" iff [s > 0]. *)
Theorem get_overhang_info_int (enzyme : Enzyme) (s : Z) :
  getattr enzyme "ovhg" = Ok (VInt s) ->
  (s = 0 -> get_overhang_info enzyme = Ok (VInt 0, "blunt")) /\
  (s < 0 -> get_overhang_info enzyme = Ok (VInt (Z.abs s), "5'")) /\
  (s > 0 -> get_overhang_info enzyme = Ok (VInt s, "3'")) /\
  exists len ty,
    get_overhang_info enzyme = Ok (VInt len, ty) /\
    0 <= len /\
    (ty = "blunt" <-> s = 0) /\
    (ty = "5'" <-> s < 0) /\
    (ty = "3'" <-> s > 0).
Proof.
  intros H. rewrite (get_overhang_info_of_int _ _ H).
  destruct (Z.eqb_spec s 0) as [->|Hn].
  - repeat split; try lia; try discriminate.
    exists 0, "blunt". repeat split; try lia; try discriminate.
  - destruct (Z.ltb_spec s 0) as [Hlt|Hge].
    + repeat split; try lia.
      exists (Z.abs s), "5'".
      repeat split; try lia; try discriminate; trivial.
    + repeat split; try lia.
      * intros _. now rewrite Z.abs_eq.
      * exists (Z.abs s), "3'".
        repeat split; try lia; try discriminate; trivial.
Qed.

Lemma get_overhang_info_int_witness :
  getattr EcoRI "ovhg" = Ok (VInt (-4)) /\
  get_overhang_info EcoRI = Ok (VInt 4, "5'").
Proof.
  split; [reflexivity|].
  apply (get_overhang_info_int EcoRI (-4)); reflexivity.
Defined.

(* ================================================================= *)
(** ** Extraction of one record *)

(** C8, as stated, at an entry that lacks the attribute [suppl]: the
    supplier list is not defaulted; extraction raises AttributeError and the
    run emits no record for the entry. *)
Lemma extract_enzyme_data_missing_suppl :
  lookup "suppl" (attrs NoSuppl) = None /\
  extract_enzyme_data NoSuppl = Raise AttributeError /\
  ~ (exists data, extract_enzyme_data NoSuppl = Ok data /\ suppliers data = [])
  /\ build_catalog [NoSuppl] = Ok [].
Proof.
  split; [reflexivity|]. split; [reflexivity|]. split; [|reflexivity].
  intros (data & H & _). discriminate H.
Qed.

(** C8, amended. extract_enzyme_data copies an entry field for field: the
    name is [str(enzyme)], site and cuts are the attributes, the overhang is
    what get_overhang_info derives, and a supplier list that is None gives
    the empty list while a list gives its elements.  EcoRI and SmaI give the
    records of the examples.  When the attribute [suppl] is absent nothing is
    defaulted: extraction raises AttributeError and the loop of [main] goes
    on without the entry. *)
Theorem extract_enzyme_data_fields :
  extract_enzyme_data EcoRI =
    Ok {| name := "EcoRI"; site := VStr "GAATTC";
          forwardCut := VInt 1; reverseCut := VInt (-1);
          overhangLength := VInt 4; overhangType := "5'";
          suppliers := [VStr "N"; VStr "R"] |} /\
  extract_enzyme_data SmaI =
    Ok {| name := "SmaI"; site := VStr "CCCGGG";
          forwardCut := VInt 3; reverseCut := VInt 3;
          overhangLength := VInt 0; overhangType := "blunt";
          suppliers := [] |} /\
  (forall enzyme s f5 f3 o sup,
      getattr enzyme "site" = Ok s ->
      getattr enzyme "fst5" = Ok f5 ->
      getattr enzyme "fst3" = Ok f3 ->
      getattr enzyme "ovhg" = Ok (VInt o) ->
      getattr enzyme "suppl" = Ok sup ->
      (sup = VNone \/ exists l, sup = VList l) ->
      extract_enzyme_data enzyme =
        Ok {| name := str enzyme; site := s;
              forwardCut := f5; reverseCut := f3;
              overhangLength := VInt (Z.abs o);
              overhangType :=
                if o =? 0 then "blunt" else if o <? 0 then "5'" else "3'";
              suppliers := match sup with VList l => l | _ => [] end |}) /\
  (forall enzyme s f5 f3 o,
      getattr enzyme "site" = Ok s ->
      getattr enzyme "fst5" = Ok f5 ->
      getattr enzyme "fst3" = Ok f3 ->
      getattr enzyme "ovhg" = Ok (VInt o) ->
      lookup "suppl" (attrs enzyme) = None ->
      extract_enzyme_data enzyme = Raise AttributeError /\
      forall rest enzymes,
        for_loop (enzyme :: rest) enzymes = for_loop rest enzymes).
Proof.
  split; [reflexivity|]. split; [reflexivity|]. split.
  - intros enzyme s f5 f3 o sup Hs H5 H3 Ho Hsup Hshape.
    apply extract_enzyme_data_ok with (sup := sup); trivial.
    + now apply get_overhang_info_of_int.
    + destruct Hshape as [-> | [l ->]]; [reflexivity|]. now destruct l.
  - intros enzyme s f5 f3 o Hs H5 H3 Ho Hno.
    assert (Hx : extract_enzyme_data enzyme = Raise AttributeError).
    { unfold extract_enzyme_data.
      rewrite (get_overhang_info_of_int _ _ Ho). simpl.
      rewrite Hs, H5, H3. simpl. unfold getattr. now rewrite Hno. }
    split; [exact Hx|]. intros rest enzymes.
    rewrite !for_loop_keeps. cbn [flat_map].
    now rewrite (keeps_extract_raise _ _ Hx).
Qed.

Lemma extract_enzyme_data_fields_witness :
  lookup "suppl" (attrs NoSuppl) = None /\
  getattr PstI "suppl" = Ok (VList []) /\
  extract_enzyme_data PstI =
    Ok {| name := "PstI"; site := VStr "CTGCAG";
          forwardCut := VInt 5; reverseCut := VInt 1;
          overhangLength := VInt 4; overhangType := "3'";
          suppliers := [] |} /\
  extract_enzyme_data NoSuppl = Raise AttributeError.
Proof.
  split; [reflexivity|]. split; [reflexivity|].
  destruct extract_enzyme_data_fields as (_ & _ & Hgen & Hmiss).
  split.
  - apply (Hgen PstI (VStr "CTGCAG") (VInt 5) (VInt 1) 4 (VList []));
      try reflexivity.
    right. exists []. reflexivity.
  - apply (Hmiss NoSuppl (VStr "GAATTC") (VInt 1) (VInt (-1)) (-4));
      reflexivity.
Defined.

(** C9. The default of the supplier list goes by truth value: whenever the
    other attributes let extraction through, a falsy [suppl] (None, the empty
    list and the empty string are falsy) gives [suppliers = []], and a truthy
    [suppl] gives [list(suppl)], which for a non-empty string is the list of
    its characters. *)
Theorem suppliers_by_truth_value (enzyme : Enzyme) (len : PyVal) (ty : string)
    (s f5 f3 sup : PyVal) :
  get_overhang_info enzyme = Ok (len, ty) ->
  getattr enzyme "site" = Ok s ->
  getattr enzyme "fst5" = Ok f5 ->
  getattr enzyme "fst3" = Ok f3 ->
  getattr enzyme "suppl" = Ok sup ->
  let record l :=
    {| name := str enzyme; site := s; forwardCut := f5; reverseCut := f3;
       overhangLength := len; overhangType := ty; suppliers := l |} in
  (truthy sup = false -> extract_enzyme_data enzyme = Ok (record [])) /\
  (truthy sup = true ->
   extract_enzyme_data enzyme = (l <- py_list sup ;; Ok (record l))) /\
  (forall c r, sup = VStr (String c r) ->
     extract_enzyme_data enzyme = Ok (record (chars (String c r))) /\
     List.length (chars (String c r)) = String.length (String c r)) /\
  truthy VNone = false /\ truthy (VList []) = false /\ truthy (VStr EmptyString) = false.
Proof.
  intros Ho Hs H5 H3 Hsup record.
  split; [|split; [|split; [|now repeat split]]].
  - intros Hf. apply extract_enzyme_data_ok with (sup := sup); trivial. now rewrite Hf.
  - intros Ht. destruct (py_list sup) as [l|e] eqn:El; simpl.
    + apply extract_enzyme_data_ok with (sup := sup); trivial. now rewrite Ht.
    + unfold extract_enzyme_data. rewrite Ho. simpl.
      rewrite Hs, H5, H3, Hsup. simpl. rewrite Ht. simpl.
      now rewrite El.
  - intros c r ->. split.
    + apply extract_enzyme_data_ok with (sup := VStr (String c r)); trivial.
    + clear. generalize (String c r) as x.
      induction x as [|a x IH]; simpl; [reflexivity | now rewrite IH].
Qed.

Lemma suppliers_by_truth_value_witness :
  extract_enzyme_data
    {| str := "EcoRI";
       attrs := [("site", VStr "GAATTC"); ("fst5", VInt 1);
                 ("fst3", VInt (-1)); ("ovhg", VInt (-4));
                 ("suppl", VStr "NR")] |} =
  Ok {| name := "EcoRI"; site := VStr "GAATTC";
        forwardCut := VInt 1; reverseCut := VInt (-1);
        overhangLength := VInt 4; overhangType := "5'";
        suppliers := [VStr "N"; VStr "R"] |}.
Proof.
  apply (suppliers_by_truth_value
           {| str := "EcoRI";
              attrs := [("site", VStr "GAATTC"); ("fst5", VInt 1);
                        ("fst3", VInt (-1)); ("ovhg", VInt (-4));
                        ("suppl", VStr "NR")] |}
           (VInt 4) "5'" (VStr "GAATTC") (VInt 1) (VInt (-1)) (VStr "NR")
           eq_refl eq_refl eq_refl eq_refl eq_refl).
  reflexivity.
Defined.

(* ================================================================= *)
(** ** The catalog that [main] builds *)

(** C2. Every run ends with a catalog, and each of its records has
    forwardCut and reverseCut different from None; an entry whose [fst5] or
    [fst3] is None or absent leaves no trace: the catalog is the one built
    without it. *)
Theorem emitted_cuts_defined (all : list Enzyme) :
  (exists enzymes,
      build_catalog all = Ok enzymes /\
      Forall (fun data => forwardCut data <> VNone /\ reverseCut data <> VNone)
        enzymes) /\
  (forall pre enzyme post a,
      all = (pre ++ enzyme :: post)%list ->
      a = "fst5" \/ a = "fst3" ->
      getattr enzyme a = Ok VNone \/ getattr enzyme a = Raise AttributeError ->
      build_catalog all = build_catalog (pre ++ post)).
Proof.
  split.
  - rewrite build_catalog_keeps. eexists. split; [reflexivity|].
    eapply Permutation_Forall; [apply list_sort_perm|].
    apply Forall_forall. intros data Hin.
    apply in_flat_map in Hin. destruct Hin as (enzyme & _ & Hin).
    apply keeps_inv in Hin. destruct Hin as (_ & _ & _ & N5 & N3 & _).
    split; now apply is_None_false.
  - intros pre enzyme post a -> Ha Hv.
    rewrite !build_catalog_keeps.
    rewrite (flat_map_keeps_skip pre post enzyme); [reflexivity|].
    now apply keeps_no_cut with a.
Qed.

Lemma emitted_cuts_defined_witness :
  getattr NoCut "fst5" = Ok VNone /\
  build_catalog [EcoRI; NoCut; SmaI] = build_catalog [EcoRI; SmaI].
Proof.
  split; [reflexivity|].
  destruct (emitted_cuts_defined [EcoRI; NoCut; SmaI]) as [_ Hskip].
  apply (Hskip [EcoRI] NoCut [SmaI] "fst5");
    [reflexivity | left; reflexivity | left; reflexivity].
Defined.

(** C3. The records that the run emits are the collected records put in
    ascending order of [name], names being compared character by character
    by code point. *)
Theorem emitted_sorted_by_name (all : list Enzyme) :
  exists collected enzymes,
    for_loop all [] = Ok collected /\
    build_catalog all = Ok enzymes /\
    Permutation collected enzymes /\
    StronglySorted name_le enzymes.
Proof.
  exists (flat_map keeps all), (list_sort String.ltb name (flat_map keeps all)).
  split; [now rewrite for_loop_keeps|].
  split; [apply build_catalog_keeps|].
  split; [apply list_sort_perm | apply list_sort_sorted].
Qed.

(** C4. An entry whose extraction raises has raised AttributeError or
    TypeError; the handler catches it, the loop goes on with the next entry
    and the list unchanged, and the run ends normally with the catalog, the
    file and the message it would have without the entry. *)
Theorem failed_extraction_skipped (pre post : list Enzyme) (enzyme : Enzyme)
    (e : PyExc) (path : string) :
  extract_enzyme_data enzyme = Raise e ->
  caught e /\
  (forall rest enzymes,
      for_loop (enzyme :: rest) enzymes = for_loop rest enzymes) /\
  build_catalog (pre ++ enzyme :: post) = build_catalog (pre ++ post) /\
  main (pre ++ enzyme :: post) path = main (pre ++ post) path /\
  exists eff, main (pre ++ enzyme :: post) path = Ok eff.
Proof.
  intros H. pose proof (keeps_extract_raise _ _ H) as Hk.
  split; [now apply extract_enzyme_data_raise with enzyme|].
  split.
  { intros rest enzymes. rewrite !for_loop_keeps. simpl.
    now rewrite Hk. }
  split.
  { rewrite !build_catalog_keeps. now rewrite flat_map_keeps_skip. }
  split.
  { rewrite !main_keeps. now rewrite flat_map_keeps_skip. }
  rewrite main_keeps. eexists. reflexivity.
Qed.

Lemma failed_extraction_skipped_witness :
  extract_enzyme_data NoSite = Raise AttributeError /\
  main [EcoRI; NoSite; SmaI] "src/enzymes.ts"
  = main [EcoRI; SmaI] "src/enzymes.ts".
Proof.
  split; [reflexivity|].
  apply (failed_extraction_skipped [EcoRI] [SmaI] NoSite AttributeError
           "src/enzymes.ts").
  reflexivity.
Defined.

Lemma keeps_names (all : list Enzyme) :
  NoDup (map str all) -> NoDup (map name (flat_map keeps all)).
Proof.
  induction all as [|enzyme rest IH]; simpl; intros Hnd; [constructor|].
  inversion Hnd as [|? ? Hnotin Hnd']; subst.
  rewrite map_app. specialize (IH Hnd').
  assert (Hsub : forall data, In data (flat_map keeps rest) ->
                              In (name data) (map str rest)).
  { intros data Hin. apply in_flat_map in Hin.
    destruct Hin as (x & Hx & Hin). apply keeps_inv in Hin.
    destruct Hin as (_ & _ & _ & _ & _ & ->). now apply in_map. }
  unfold keeps at 1. destruct (try_body enzyme) as [[data|]|] eqn:E;
    simpl; trivial.
  constructor; [|exact IH].
  intros Hin. apply in_map_iff in Hin. destruct Hin as (d' & Hn & Hin).
  apply Hnotin. apply Hsub in Hin. rewrite Hn in Hin.
  assert (Hd : In data (keeps enzyme)) by (unfold keeps; rewrite E; now left).
  apply keeps_inv in Hd. destruct Hd as (_ & _ & _ & _ & _ & <-). exact Hin.
Qed.

(** C5. A run always ends normally, and the text it writes depends on the
    entries alone: a second run over the same catalog writes the same text,
    whatever the output path, and so does a run that meets the entries in
    another order, provided no two entries share a name. *)
Theorem main_deterministic (all : list Enzyme) (path : string) :
  exists eff,
    main all path = Ok eff /\
    (forall path' eff',
        main all path' = Ok eff' -> written_text eff' = written_text eff) /\
    (forall all' path' eff',
        Permutation all all' ->
        NoDup (map str all) ->
        main all' path' = Ok eff' -> written_text eff' = written_text eff).
Proof.
  rewrite main_keeps. eexists. split; [reflexivity|]. split.
  - intros path' eff'. rewrite main_keeps. now intros [= <-].
  - intros all' path' eff' HP Hnd. rewrite main_keeps. intros [= <-].
    cbn [written_text]. f_equal.
    apply (sorted_perm_unique name).
    + eapply Permutation_NoDup;
        [apply Permutation_map, list_sort_perm|].
      apply keeps_names. eapply Permutation_NoDup; [|exact Hnd].
      now apply Permutation_map.
    + apply list_sort_sorted.
    + apply list_sort_sorted.
    + eapply perm_trans; [apply Permutation_sym, list_sort_perm|].
      eapply perm_trans; [|apply list_sort_perm].
      apply Permutation_flat_map. now apply Permutation_sym.
Qed.

Lemma main_deterministic_witness :
  exists eff eff',
    main [SmaI; NoCut; EcoRI] "a.ts" = Ok eff /\
    main [EcoRI; SmaI; NoCut] "b.ts" = Ok eff' /\
    written_text eff' = written_text eff.
Proof.
  destruct (main_deterministic [SmaI; NoCut; EcoRI] "a.ts")
    as (eff & Hrun & _ & Hperm).
  exists eff. eexists. split; [exact Hrun|]. split; [reflexivity|].
  apply (Hperm [EcoRI; SmaI; NoCut] "b.ts").
  - apply Permutation_sym. apply (Permutation_cons_append [SmaI; NoCut] EcoRI).
  - repeat constructor; simpl; intuition discriminate.
  - reflexivity.
Defined.

(** C10. When the catalog is empty, or every entry is skipped, the run
    still writes the whole file: the two banner lines, the import line and
    the constant bound to the empty array, closed by a semicolon and a
    newline; and it reports 0 enzymes. *)
Theorem empty_catalog_output (all : list Enzyme) (path : string) :
  Forall (fun enzyme => forall data, try_body enzyme <> Ok (Some data)) all ->
  main all path =
  Ok {| written_path := path;
        written_text :=
          "// Auto-generated from BioPython Bio.Restriction - DO NOT EDIT"
            ++ newline
            ++ "// Regenerate with: uv run generate-enzymes" ++ newline
            ++ newline
            ++ "import type { RestrictionEnzyme } from "
            ++ String dquote ("./types.js" ++ String dquote ";") ++ newline
            ++ newline
            ++ "export const enzymes: RestrictionEnzyme[] = " ++ newline
            ++ "[];" ++ newline;
        printed := "Generated " ++ path ++ " with 0 enzymes" ++ newline |}.
Proof.
  intros Hskip. rewrite main_keeps.
  assert (Hk : flat_map keeps all = []).
  { induction Hskip as [|enzyme rest Hx _ IH]; simpl; [reflexivity|].
    now rewrite (keeps_skip _ Hx), IH. }
  rewrite Hk. reflexivity.
Qed.

Lemma empty_catalog_output_witness :
  Forall (fun enzyme => forall data, try_body enzyme <> Ok (Some data))
    [NoCut; NoSite] /\
  exists eff,
    main [NoCut; NoSite] "src/enzymes.ts" = Ok eff /\
    printed eff = "Generated src/enzymes.ts with 0 enzymes" ++ newline.
Proof.
  assert (H : Forall (fun enzyme => forall data,
                          try_body enzyme <> Ok (Some data)) [NoCut; NoSite])
    by (repeat constructor; intros data; discriminate).
  split; [exact H|].
  eexists. split.
  - apply (empty_catalog_output [NoCut; NoSite] "src/enzymes.ts" H).
  - reflexivity.
Defined.

(* ================================================================= *)
(** ** Tokens: whitespace, strings and integers *)

Lemma skip_ws_indent (n : nat) (s : string) :
  skip_ws (indent_str n ++ s) = skip_ws s.
Proof. induction n as [|n IH]; [reflexivity | exact IH]. Qed.

Lemma skip_ws_newline_indent (n : nat) (s : string) :
  skip_ws (newline_indent n ++ s) = skip_ws s.
Proof.
  unfold newline_indent, newline. rewrite append_assoc.
  cbn [append skip_ws is_ws]. apply skip_ws_indent.
Qed.

Lemma eat_append (p s : string) : eat p (p ++ s) = Some s.
Proof.
  induction p as [|a p IH]; simpl; [reflexivity|].
  now rewrite Ascii.eqb_refl.
Qed.

Lemma strip_suffix_append (suf x : string) :
  strip_suffix suf (x ++ suf) = Some x.
Proof.
  induction x as [|c x IH].
  - simpl. destruct suf; simpl; now rewrite ?String.eqb_refl, ?Ascii.eqb_refl.
  - cbn [append strip_suffix].
    destruct (String.eqb_spec (String c (x ++ suf)) suf) as [E|_].
    + apply (f_equal String.length) in E. simpl in E.
      rewrite length_append in E. lia.
    + now rewrite IH.
Qed.

(** One escaped character reads back as the character. *)
Lemma scan_string_escape_char (c : ascii) (tail : string) :
  scan_string (escape_char c ++ tail) = cons_char c (scan_string tail).
Proof.
  destruct c as [[] [] [] [] [] [] [] []]; reflexivity.
Qed.

Lemma scan_string_escape_body (s rest : string) :
  scan_string (escape_body s ++ String dquote rest) = Some (s, rest).
Proof.
  induction s as [|c s IH]; [reflexivity|].
  cbn [escape_body]. rewrite append_assoc, scan_string_escape_char.
  now rewrite IH.
Qed.

Lemma scan_string_encode (s rest : string) :
  exists body,
    encode_basestring_ascii s ++ rest = String dquote body /\
    scan_string body = Some (s, rest).
Proof.
  exists (escape_body s ++ String dquote rest). split.
  - unfold encode_basestring_ascii. cbn [append]. now rewrite append_assoc.
  - apply scan_string_escape_body.
Qed.

Lemma scan_digits_uint (d : uint) (rest : string) :
  closes_int rest = true ->
  scan_digits (NilEmpty.string_of_uint d ++ rest) = (d, rest).
Proof.
  intros Hrest.
  induction d as [|d IH|d IH|d IH|d IH|d IH|d IH|d IH|d IH|d IH|d IH];
    cbn [NilEmpty.string_of_uint append scan_digits digit_of];
    try (now rewrite IH).
  destruct rest as [|c r]; [reflexivity|].
  unfold closes_int in Hrest. apply andb_true_iff in Hrest.
  destruct Hrest as [_ Hd]. cbn [scan_digits].
  now destruct (digit_of c).
Qed.

Lemma to_uint_no_leading_zero (p : positive) (d : uint) :
  Pos.to_uint p <> D0 d.
Proof.
  intros E.
  pose proof (DecimalPos.Unsigned.to_of (Pos.to_uint p)) as H.
  rewrite DecimalPos.Unsigned.of_to in H. cbn [N.to_uint] in H.
  rewrite E in H. unfold unorm in H. cbn [nzhead] in H.
  destruct (nzhead d) as [|u|u|u|u|u|u|u|u|u|u] eqn:En; try discriminate H.
  - injection H as ->. now apply (DecimalPos.Unsigned.to_uint_nonzero p).
  - now apply DecimalFacts.nzhead_nonzero in En.
Qed.

Lemma scan_nat_pos (p : positive) (rest : string) :
  closes_int rest = true ->
  scan_nat (NilEmpty.string_of_uint (Pos.to_uint p) ++ rest)
  = Some (Z.pos p, rest).
Proof.
  intros Hrest. unfold scan_nat. rewrite (scan_digits_uint _ _ Hrest).
  assert (Hends : ends_int rest = true).
  { unfold closes_int in Hrest. now apply andb_true_iff in Hrest. }
  assert (Hval : Z.of_uint (Pos.to_uint p) = Z.pos p).
  { unfold Z.of_uint. now rewrite DecimalPos.Unsigned.of_to. }
  pose proof (to_uint_no_leading_zero p) as Hz.
  pose proof (DecimalPos.Unsigned.to_uint_nonnil p) as Hn.
  destruct (Pos.to_uint p) as [|d|d|d|d|d|d|d|d|d|d];
    try (now rewrite Hends, Hval).
  - now destruct Hn.
  - now destruct (Hz d).
Qed.

Lemma string_of_uint_pos (p : positive) :
  NilZero.string_of_uint (Pos.to_uint p)
  = NilEmpty.string_of_uint (Pos.to_uint p).
Proof.
  pose proof (DecimalPos.Unsigned.to_uint_nonnil p) as Hn.
  now destruct (Pos.to_uint p).
Qed.

(** The first character of the digits of a positive number. *)
Lemma string_of_uint_pos_head (p : positive) :
  exists c r,
    NilEmpty.string_of_uint (Pos.to_uint p) = String c r /\
    digit_of c <> None.
Proof.
  pose proof (DecimalPos.Unsigned.to_uint_nonnil p) as Hn.
  destruct (Pos.to_uint p); [now destruct Hn| ..];
    eexists; eexists; (split; [reflexivity | discriminate]).
Qed.

Lemma scan_int_repr (z : Z) (rest : string) :
  closes_int rest = true ->
  scan_int (repr_int z ++ rest) = Some (z, rest).
Proof.
  intros Hrest. unfold repr_int. destruct z as [|p|p]; cbn [Z.to_int].
  - assert (H : scan_nat (NilEmpty.string_of_uint (D0 Nil) ++ rest)
                 = Some (0, rest)).
    { unfold scan_nat. rewrite (scan_digits_uint _ _ Hrest).
      unfold closes_int in Hrest. apply andb_true_iff in Hrest.
      destruct Hrest as [-> _]. reflexivity. }
    exact H.
  - cbn [NilZero.string_of_int]. rewrite string_of_uint_pos.
    destruct (string_of_uint_pos_head p) as (c & r & E & Hc).
    pose proof (scan_nat_pos p rest Hrest) as H. rewrite E in *.
    cbn [append] in *. unfold scan_int.
    destruct c as [[] [] [] [] [] [] [] []]; try exact H;
      now destruct Hc.
  - cbn [NilZero.string_of_int]. rewrite string_of_uint_pos.
    cbn [append scan_int]. now rewrite scan_nat_pos.
Qed.

(** An integer token is read by the last branch of [parse_value]. *)
Lemma parse_value_int (f : nat) (z : Z) (rest : string) :
  closes_int rest = true ->
  parse_value (S f) (repr_int z ++ rest) = Some (VInt z, rest).
Proof.
  intros Hrest. pose proof (scan_int_repr z rest Hrest) as H.
  assert (Hhead : exists c r, repr_int z ++ rest = String c r /\
                              (c = "-"%char \/ digit_of c <> None)).
  { unfold repr_int. destruct z as [|p|p]; cbn [Z.to_int NilZero.string_of_int].
    - eexists; eexists; split; [reflexivity | right; discriminate].
    - rewrite string_of_uint_pos.
      destruct (string_of_uint_pos_head p) as (c & r & -> & Hc).
      eexists; eexists; split; [reflexivity | now right].
    - eexists; eexists; split; [reflexivity | now left]. }
  destruct Hhead as (c & r & E & Hc). rewrite E in *.
  destruct Hc as [-> | Hc].
  - cbn [parse_value skip_ws is_ws]. now rewrite H.
  - destruct c as [[] [] [] [] [] [] [] []];
      try (now destruct Hc);
      cbn [parse_value skip_ws is_ws]; now rewrite H.
Qed.

(* ================================================================= *)
(** ** Values: the reader undoes the encoder *)

Lemma next_is_newline_indent (c : ascii) (n : nat) (s : string) :
  next_is c (newline_indent n ++ s) = next_is c s.
Proof. unfold next_is. now rewrite skip_ws_newline_indent. Qed.

Lemma skip_ws_opens (s : string) : opens_value s = true -> skip_ws s = s.
Proof.
  destruct s as [|c r]; [discriminate|]. cbn [opens_value skip_ws].
  now destruct (is_ws c).
Qed.

Lemma next_is_opens (s : string) :
  opens_value s = true -> next_is "]" s = None /\ next_is "}" s = None.
Proof.
  intros H. unfold next_is. rewrite (skip_ws_opens _ H).
  destruct s as [|c r]; [discriminate|]. cbn [opens_value] in H.
  apply andb_true_iff in H. destruct H as [H H2].
  apply andb_true_iff in H. destruct H as [_ H1].
  apply negb_true_iff in H1, H2. now rewrite H1, H2.
Qed.

Lemma parse_value_skip_ws (f : nat) (s s' : string) :
  skip_ws s = skip_ws s' -> parse_value f s = parse_value f s'.
Proof. intros H. destruct f; cbn [parse_value]; now rewrite ?H. Qed.

Lemma iterencode_list (level : nat) (x : PyVal) (l : list PyVal)
    (rest : string) :
  iterencode level (VList (x :: l)) ++ rest
  = String "[" (newline_indent (S level)
      ++ String.concat (String "," (newline_indent (S level)))
           (map (iterencode (S level)) (x :: l))
      ++ newline_indent level ++ String "]" rest).
Proof.
  change (iterencode level (VList (x :: l)))
    with ("[" ++ newline_indent (S level)
          ++ String.concat ("," ++ newline_indent (S level))
               (map (iterencode (S level)) (x :: l))
          ++ newline_indent level ++ "]").
  cbn [append]. now rewrite !append_assoc.
Qed.

Lemma iterencode_dict (level : nat) (kv : string * PyVal)
    (d : list (string * PyVal)) (rest : string) :
  iterencode level (VDict (kv :: d)) ++ rest
  = String "{" (newline_indent (S level)
      ++ String.concat (String "," (newline_indent (S level)))
           (map (member_text level) (kv :: d))
      ++ newline_indent level ++ String "}" rest).
Proof.
  change (iterencode level (VDict (kv :: d)))
    with ("{" ++ newline_indent (S level)
          ++ String.concat ("," ++ newline_indent (S level))
               (map (member_text level) (kv :: d))
          ++ newline_indent level ++ "}").
  cbn [append]. now rewrite !append_assoc.
Qed.

Lemma digit_opens (c : ascii) (r : string) :
  c = "-"%char \/ digit_of c <> None -> opens_value (String c r) = true.
Proof.
  intros [-> | H]; [reflexivity|].
  destruct c as [[] [] [] [] [] [] [] []];
    try reflexivity; now destruct H.
Qed.

Lemma iterencode_opens (level : nat) (v : PyVal) (rest : string) :
  opens_value (iterencode level v ++ rest) = true.
Proof.
  destruct v as [|[]|z|s|[|x l]|[|kv d]]; try reflexivity.
  unfold iterencode, repr_int.
  destruct z as [|p|p]; cbn [Z.to_int NilZero.string_of_int];
    try reflexivity.
  rewrite string_of_uint_pos.
  destruct (string_of_uint_pos_head p) as (c & r & -> & Hc).
  apply digit_opens. now right.
Qed.

Lemma closes_int_newline_indent (n : nat) (s : string) :
  closes_int (newline_indent n ++ s) = true.
Proof. reflexivity. Qed.

Lemma parse_elements_encoded (level : nat) (l : list PyVal) :
    l <> [] -> Forall reads_back l ->
    forall rest f,
      (fold_right (fun x n => S (Nat.max (need x) n)) O l <= f)%nat ->
      parse_elements f
        (newline_indent (S level)
           ++ String.concat (String "," (newline_indent (S level)))
                (map (iterencode (S level)) l)
           ++ newline_indent level ++ String "]" rest)
      = Some (l, rest).
  Proof.
    induction l as [|x l IH]; [congruence|].
    intros _ HF rest f Hf. inversion HF as [|? ? Hx HF']; subst.
    cbn [fold_right] in Hf. destruct f as [|f]; [lia|].
    cbn [parse_elements].
    rewrite (parse_value_skip_ws f _ _ (skip_ws_newline_indent _ _)).
    destruct l as [|y l'].
    - cbn [map String.concat].
      rewrite Hx by (try apply closes_int_newline_indent; lia).
      rewrite !next_is_newline_indent. reflexivity.
    - change (String.concat (String "," (newline_indent (S level)))
                (map (iterencode (S level)) (x :: y :: l')))
        with (iterencode (S level) x
              ++ String "," (newline_indent (S level))
              ++ String.concat (String "," (newline_indent (S level)))
                   (map (iterencode (S level)) (y :: l'))).
      rewrite !append_assoc. cbn [append].
      rewrite Hx by (try reflexivity; lia).
      change (next_is "," (String "," ?r)) with (Some r).
      cbv beta iota.
      rewrite IH; [reflexivity | discriminate | exact HF' | ].
      cbn [fold_right] in Hf |- *. lia.
Qed.

Lemma next_is_here (c : ascii) (r : string) :
  is_ws c = false -> next_is c (String c r) = Some r.
Proof.
  intros H. unfold next_is. cbn [skip_ws]. now rewrite H, Ascii.eqb_refl.
Qed.

Lemma parse_value_space (f : nat) (s : string) :
  parse_value f (String " " s) = parse_value f s.
Proof. now apply parse_value_skip_ws. Qed.

Lemma member_text_append (level : nat) (k : string) (v : PyVal)
    (rest : string) :
  member_text level (k, v) ++ rest
  = String dquote
      (escape_body k
         ++ String dquote
              (String ":" (String " " (iterencode (S level) v ++ rest)))).
Proof.
  unfold member_text, encode_basestring_ascii. cbn [fst snd append].
  now rewrite !append_assoc.
Qed.

Lemma parse_members_encoded (level : nat) (d : list (string * PyVal)) :
  d <> [] -> Forall (fun kv => reads_back (snd kv)) d ->
  forall rest f,
    (fold_right (fun kv n => S (Nat.max (need (snd kv)) n)) O d <= f)%nat ->
    parse_members f
      (newline_indent (S level)
         ++ String.concat (String "," (newline_indent (S level)))
              (map (member_text level) d)
         ++ newline_indent level ++ String "}" rest)
    = Some (d, rest).
Proof.
  induction d as [|[k v] d IH]; [congruence|].
  intros _ HF rest f Hf. inversion HF as [|? ? Hv HF']; subst.
  cbn [snd] in Hv. cbn [fold_right snd] in Hf.
  destruct f as [|f]; [lia|].
  cbn [parse_members]. rewrite next_is_newline_indent.
  destruct d as [|kv d'].
  - cbn [map String.concat]. rewrite member_text_append.
    rewrite next_is_here by reflexivity.
    rewrite scan_string_escape_body.
    rewrite next_is_here by reflexivity.
    rewrite parse_value_space.
    rewrite Hv by (try apply closes_int_newline_indent; lia).
    rewrite !next_is_newline_indent. reflexivity.
  - change (String.concat (String "," (newline_indent (S level)))
              (map (member_text level) ((k, v) :: kv :: d')))
      with (member_text level (k, v)
            ++ String "," (newline_indent (S level))
            ++ String.concat (String "," (newline_indent (S level)))
                 (map (member_text level) (kv :: d'))).
    rewrite !append_assoc. cbn [append]. rewrite member_text_append.
    rewrite next_is_here by reflexivity.
    rewrite scan_string_escape_body.
    rewrite next_is_here by reflexivity.
    rewrite parse_value_space.
    rewrite Hv by (try reflexivity; lia).
    change (next_is "," (String "," ?r)) with (Some r).
    cbv beta iota.
    rewrite IH; [reflexivity | discriminate | exact HF' | ].
    cbn [fold_right] in Hf |- *. lia.
Qed.

Lemma concat_opens {A : Type} (enc : A -> string) (sep rest : string)
    (x : A) (l : list A) :
  (forall tail, opens_value (enc x ++ tail) = true) ->
  opens_value (String.concat sep (map enc (x :: l)) ++ rest) = true.
Proof.
  intros H. destruct l as [|y l]; cbn [map String.concat]; [apply H|].
  rewrite append_assoc. apply H.
Qed.

(** Reading an encoded value gives the value and leaves what followed. *)
Lemma parse_value_iterencode (v : PyVal) : reads_back v.
Proof.
  induction v as [|b|z|s|l IH|d IH] using PyVal_nested_ind;
    intros level rest f Hf Hrest;
    (destruct f as [|f]; [cbn in Hf; lia|]).
  - reflexivity.
  - destruct b; reflexivity.
  - now apply parse_value_int.
  - destruct (scan_string_encode s rest) as (body & E & Hs).
    cbn [iterencode]. rewrite E.
    cbn [parse_value skip_ws is_ws dquote]. now rewrite Hs.
  - destruct l as [|x l]; [reflexivity|].
    rewrite iterencode_list. cbn [parse_value skip_ws is_ws].
    rewrite next_is_newline_indent.
    destruct (next_is_opens _ (concat_opens (iterencode (S level))
                (String "," (newline_indent (S level)))
                (newline_indent level ++ String "]" rest) x l
                (iterencode_opens (S level) x))) as [-> _].
    rewrite parse_elements_encoded; [reflexivity | discriminate | exact IH|].
    cbn [need] in Hf. lia.
  - destruct d as [|kv d]; [reflexivity|].
    rewrite iterencode_dict. cbn [parse_value skip_ws is_ws].
    rewrite next_is_newline_indent.
    assert (Hopen : forall tail,
               opens_value (member_text level kv ++ tail) = true).
    { intros tail. destruct kv as [k v]. now rewrite member_text_append. }
    destruct (next_is_opens _ (concat_opens (member_text level)
                (String "," (newline_indent (S level)))
                (newline_indent level ++ String "}" rest) kv d Hopen))
      as [_ ->].
    rewrite parse_members_encoded; [reflexivity | discriminate | exact IH|].
    cbn [need] in Hf. lia.
Qed.

(* ----------------------------------------------------------------- *)
(** *** The length of the text is fuel enough *)

Lemma concat_cons2 (sep x y : string) (l : list string) :
  String.concat sep (x :: y :: l) = x ++ sep ++ String.concat sep (y :: l).
Proof. reflexivity. Qed.

Lemma need_le_length (v : PyVal) (level : nat) :
  (need v <= String.length (iterencode level v))%nat.
Proof.
  revert level.
  induction v as [|b|z|s|l IH|d IH] using PyVal_nested_ind; intros level.
  - cbn. lia.
  - destruct b; cbn; lia.
  - pose proof (iterencode_opens level (VInt z) EmptyString) as H.
    rewrite append_empty_r in H.
    destruct (iterencode level (VInt z)); [discriminate | cbn; lia].
  - cbn. lia.
  - destruct l as [|x l]; [cbn; lia|].
    rewrite <- (append_empty_r (iterencode level (VList (x :: l)))).
    rewrite iterencode_list. cbn [need String.length].
    rewrite !length_append. cbn [String.length].
    enough (H : (fold_right (fun x n => S (Nat.max (need x) n)) O (x :: l)
                 <= String.length
                      (String.concat (String "," (newline_indent (S level)))
                         (map (iterencode (S level)) (x :: l))) + 1)%nat)
      by lia.
    clear -IH. induction IH as [|y r Hy _ IHr]; [cbn; lia|].
    destruct r as [|y' r].
    + cbn [fold_right map String.concat]. specialize (Hy (S level)). lia.
    + cbn [map]. rewrite concat_cons2, !length_append.
      cbn [map fold_right String.length] in IHr |- *.
      specialize (Hy (S level)). lia.
  - destruct d as [|kv d]; [cbn; lia|].
    rewrite <- (append_empty_r (iterencode level (VDict (kv :: d)))).
    rewrite iterencode_dict. cbn [need String.length].
    rewrite !length_append. cbn [String.length].
    enough (H : (fold_right (fun kv n => S (Nat.max (need (snd kv)) n)) O
                   (kv :: d)
                 <= String.length
                      (String.concat (String "," (newline_indent (S level)))
                         (map (member_text level) (kv :: d))) + 1)%nat)
      by lia.
    clear -IH.
    assert (Hm : forall m : string * PyVal,
               (forall level, need (snd m)
                              <= String.length (iterencode level (snd m)))%nat
               -> (need (snd m) <= String.length (member_text level m))%nat).
    { intros m H. unfold member_text. rewrite !length_append.
      specialize (H (S level)). lia. }
    induction IH as [|y r Hy _ IHr]; [cbn; lia|].
    apply Hm in Hy. destruct r as [|y' r].
    + cbn [fold_right map String.concat]. lia.
    + cbn [map]. rewrite concat_cons2, !length_append.
      cbn [map fold_right String.length] in IHr |- *. lia.
Qed.

Lemma json_loads_dumps (v : PyVal) : json_loads (json_dumps v) = Some v.
Proof.
  unfold json_loads, json_dumps.
  pose proof (parse_value_iterencode v 0%nat EmptyString _ (need_le_length v 0)
                eq_refl) as H.
  rewrite append_empty_r in H. now rewrite H.
Qed.

Lemma generate_typescript_split (enzymes : list enzyme_data) :
  generate_typescript enzymes
  = (String.concat newline header_lines ++ newline)
      ++ json_dumps (VList (map as_dict enzymes)) ++ (";" ++ newline).
Proof.
  unfold generate_typescript, header_lines.
  cbn [List.app String.concat]. now rewrite !append_assoc.
Qed.

Lemma embedded_json_generate (enzymes : list enzyme_data) :
  embedded_json (generate_typescript enzymes)
  = Some (json_dumps (VList (map as_dict enzymes))).
Proof.
  unfold embedded_json. rewrite generate_typescript_split, eat_append.
  apply strip_suffix_append.
Qed.

(* ================================================================= *)
(** ** The generated file *)

Lemma record_text_encodes (e : enzyme_data) :
  record_text e = "  " ++ iterencode 1 (as_dict e).
Proof.
  unfold record_text, as_dict, items, quoted.
  cbn [iterencode map String.concat fst snd].
  unfold newline_indent, encode_basestring_ascii.
  cbn [indent_str escape_body escape_char].
  repeat (rewrite ?append_assoc; cbn [append]).
  reflexivity.
Qed.

Lemma append_cons (c : ascii) (a b : string) :
  String c a ++ b = String c (a ++ b).
Proof. reflexivity. Qed.

Lemma concat_record_texts (x : enzyme_data) (l : list enzyme_data)
    (rest : string) :
  "  " ++ String.concat (String "," (newline ++ "  "))
            (map (iterencode 1) (map as_dict (x :: l))) ++ rest
  = String.concat (String "," newline) (map record_text (x :: l)) ++ rest.
Proof.
  revert x. induction l as [|y l IH]; intros x.
  - cbn [map String.concat]. rewrite record_text_encodes.
    now rewrite append_assoc.
  - specialize (IH y). cbn [map] in IH |- *.
    rewrite !concat_cons2, record_text_encodes, !append_assoc.
    f_equal. f_equal. rewrite !(append_cons ","). f_equal.
    rewrite append_assoc. f_equal. exact IH.
Qed.

Lemma array_text_encodes (enzymes : list enzyme_data) :
  array_text enzymes = json_dumps (VList (map as_dict enzymes)).
Proof.
  destruct enzymes as [|e r]; [reflexivity|].
  unfold json_dumps. rewrite <- (append_empty_r (iterencode 0 _)).
  cbn [map]. rewrite iterencode_list. unfold array_text.
  change ("[" ++ newline
            ++ String.concat ("," ++ newline) (map record_text (e :: r))
            ++ newline ++ "]")
    with (String "[" (newline
            ++ String.concat (String "," newline) (map record_text (e :: r))
            ++ newline ++ "]")).
  f_equal.
  change (newline_indent 0) with newline.
  change (newline_indent 1) with (newline ++ "  ").
  rewrite !append_assoc. f_equal.
  symmetry. apply (concat_record_texts e r (newline ++ "]")).
Qed.

(** C7. For every list of records the generated text is the two banner
    lines, an empty line, the import line, an empty line, the declaration
    line and then the array: one object per record, its seven fields in the
    order name, site, forwardCut, reverseCut, overhangLength, overhangType,
    suppliers, nested by two spaces per level; then a semicolon and one
    newline, which ends the text. *)
Theorem generate_typescript_layout (enzymes : list enzyme_data) :
  generate_typescript enzymes = file_text enzymes /\
  exists body, generate_typescript enzymes = body ++ String ";" newline.
Proof.
  split.
  - rewrite generate_typescript_split, <- array_text_encodes.
    unfold file_text, header_lines. cbn [String.concat].
    now rewrite !append_assoc.
  - rewrite generate_typescript_split. rewrite <- append_assoc.
    eexists. reflexivity.
Qed.

(** C6. The JSON array found in the generated text reads back as the list
    of records that was serialised: as many objects as records, each with
    the keys and values of its record; this holds for every list of records
    and so for the catalog of every run. *)
Theorem generated_json_round_trip :
  (forall enzymes : list enzyme_data,
      exists js parsed,
        embedded_json (generate_typescript enzymes) = Some js /\
        json_loads js = Some (VList parsed) /\
        List.length parsed = List.length enzymes /\
        Forall2 (fun p e => p = VDict (items e)) parsed enzymes) /\
  (forall (all : list Enzyme) (path : string),
      exists enzymes eff js,
        build_catalog all = Ok enzymes /\
        main all path = Ok eff /\
        embedded_json (written_text eff) = Some js /\
        json_loads js = Some (VList (map as_dict enzymes))).
Proof.
  split.
  - intros enzymes.
    exists (json_dumps (VList (map as_dict enzymes))), (map as_dict enzymes).
    split; [apply embedded_json_generate|].
    split; [apply json_loads_dumps|].
    split; [apply length_map|].
    induction enzymes as [|e r IH]; constructor; [reflexivity | exact IH].
  - intros all path. rewrite main_keeps, build_catalog_keeps.
    eexists. eexists. eexists. split; [reflexivity|].
    split; [reflexivity|]. cbn [written_text].
    split; [apply embedded_json_generate | apply json_loads_dumps].
Qed.

(* ================================================================= *)
(** ** Further properties of the extraction *)

Lemma getattr_lookup (enzyme : Enzyme) (a : string) (v : PyVal) :
  getattr enzyme a = Ok v <-> lookup a (attrs enzyme) = Some v.
Proof.
  unfold getattr. destruct (lookup a (attrs enzyme)); split;
    intros H; try discriminate; now injection H as ->.
Qed.



Lemma extract_enzyme_data_inv (enzyme : Enzyme) (data : enzyme_data) :
  extract_enzyme_data enzyme = Ok data ->
  get_overhang_info enzyme = Ok (overhangLength data, overhangType data) /\
  getattr enzyme "site" = Ok (site data) /\
  getattr enzyme "fst5" = Ok (forwardCut data) /\
  getattr enzyme "fst3" = Ok (reverseCut data) /\
  name data = str enzyme /\
  exists sup,
    getattr enzyme "suppl" = Ok sup /\
    (if truthy sup then py_list sup else Ok []) = Ok (suppliers data).
Proof.
  unfold extract_enzyme_data.
  destruct (get_overhang_info enzyme) as [[len ty]|]; simpl; [|discriminate].
  destruct (getattr enzyme "site"); simpl; [|discriminate].
  destruct (getattr enzyme "fst5"); simpl; [|discriminate].
  destruct (getattr enzyme "fst3"); simpl; [|discriminate].
  destruct (getattr enzyme "suppl") as [sup|]; simpl; [|discriminate].
  destruct (truthy sup) eqn:Et; simpl.
  - destruct (py_list sup) as [l|] eqn:El; simpl; [|discriminate].
    intros [= <-]. simpl. repeat split. exists sup. now rewrite Et.
  - intros [= <-]. simpl. repeat split. exists sup. now rewrite Et.
Qed.

Lemma keeps_iff (enzyme : Enzyme) (data : enzyme_data) :
  In data (keeps enzyme) <->
  extract_enzyme_data enzyme = Ok data /\
  forwardCut data <> VNone /\ reverseCut data <> VNone.
Proof.
  split.
  - intros H. apply keeps_inv in H.
    destruct H as (Hx & _ & _ & N5 & N3 & _).
    split; [exact Hx|]. split; now apply is_None_false.
  - intros (Hx & N5 & N3).
    destruct (extract_enzyme_data_inv _ _ Hx) as (_ & _ & H5 & H3 & _).
    unfold keeps, try_body. rewrite H5. simpl.
    destruct (forwardCut data) eqn:E5; try (now destruct N5); simpl;
      rewrite H3; simpl;
      destruct (reverseCut data) eqn:E3; try (now destruct N3); simpl;
      rewrite Hx; simpl; now left.
Qed.

(** X1. get_overhang_info fails exactly on an [ovhg] that is absent
    (AttributeError) or that is None, a str, a list or a dict (TypeError,
    from the comparison with 0).  A bool is compared as the int it is:
    False gives [(0, "blunt")] and True comes back itself with type "3'". *)
Theorem get_overhang_info_by_type (enzyme : Enzyme) :
  match lookup "ovhg" (attrs enzyme) with
  | None => get_overhang_info enzyme = Raise AttributeError
  | Some (VInt s) =>
      get_overhang_info enzyme =
      Ok (VInt (Z.abs s),
          if s =? 0 then "blunt" else if s <? 0 then "5'" else "3'")
  | Some (VBool false) => get_overhang_info enzyme = Ok (VInt 0, "blunt")
  | Some (VBool true) => get_overhang_info enzyme = Ok (VBool true, "3'")
  | Some _ => get_overhang_info enzyme = Raise TypeError
  end.
Proof.
  destruct (lookup "ovhg" (attrs enzyme)) as [o|] eqn:E.
  - apply getattr_lookup in E.
    destruct o as [|[]|z| | |];
      try (unfold get_overhang_info; rewrite E; reflexivity).
    now apply get_overhang_info_of_int.
  - unfold get_overhang_info, getattr. now rewrite E.
Qed.



(* ================================================================= *)
(** ** Further properties of the catalog *)

Lemma in_catalog (all : list Enzyme) (data : enzyme_data) :
  In data (list_sort String.ltb name (flat_map keeps all)) <->
  exists enzyme, In enzyme all /\ In data (keeps enzyme).
Proof.
  rewrite <- in_flat_map. split; intros H.
  - eapply Permutation_in; [apply Permutation_sym, list_sort_perm | exact H].
  - eapply Permutation_in; [apply list_sort_perm | exact H].
Qed.

(** X3. The catalog holds exactly the records that extract_enzyme_data
    gives for the entries of the input and whose two cuts are not None:
    nothing else gets in, and no such record is dropped. *)
Theorem catalog_membership (all : list Enzyme) :
  exists enzymes,
    build_catalog all = Ok enzymes /\
    forall data,
      In data enzymes <->
      exists enzyme,
        In enzyme all /\ extract_enzyme_data enzyme = Ok data /\
        forwardCut data <> VNone /\ reverseCut data <> VNone.
Proof.
  rewrite build_catalog_keeps. eexists. split; [reflexivity|].
  intros data. rewrite in_catalog.
  split; intros (enzyme & Hin & H); exists enzyme; (split; [exact Hin|]);
    now apply keeps_iff.
Qed.


Lemma keeps_length (enzyme : Enzyme) :
  (List.length (keeps enzyme) <= 1)%nat /\
  (List.length (keeps enzyme) = 1%nat <->
   exists data, try_body enzyme = Ok (Some data)).
Proof.
  unfold keeps. destruct (try_body enzyme) as [[data|]|e]; simpl.
  - split; [lia|]. split; eauto.
  - split; [lia|]. split; [discriminate | intros [d H]; discriminate].
  - split; [lia|]. split; [discriminate | intros [d H]; discriminate].
Qed.

Lemma flat_map_keeps_length (all : list Enzyme) :
  (List.length (flat_map keeps all) <= List.length all)%nat /\
  (List.length (flat_map keeps all) = List.length all <->
   Forall (fun enzyme => exists data, try_body enzyme = Ok (Some data)) all).
Proof.
  induction all as [|enzyme rest [IHle IHeq]]; simpl.
  - split; [lia|]. split; [constructor | reflexivity].
  - rewrite length_app.
    destruct (keeps_length enzyme) as [Hle Heq]. split; [lia|]. split.
    + intros H. constructor; [apply Heq | apply IHeq]; lia.
    + intros H. inversion H as [|? ? Hx Hr]; subst.
      apply Heq in Hx. apply IHeq in Hr. lia.
Qed.

(** X5. The number of enzymes that [main] reports is the length of the
    catalog it wrote; it never exceeds the number of entries of the input,
    and equals it exactly when no entry was skipped. *)
Theorem reported_count (all : list Enzyme) (path : string) :
  exists enzymes eff,
    build_catalog all = Ok enzymes /\
    main all path = Ok eff /\
    written_text eff = generate_typescript enzymes /\
    printed eff = "Generated " ++ path ++ " with "
                    ++ repr_int (Z.of_nat (List.length enzymes))
                    ++ " enzymes" ++ newline /\
    (List.length enzymes <= List.length all)%nat /\
    (List.length enzymes = List.length all <->
     Forall (fun enzyme => exists data, try_body enzyme = Ok (Some data)) all).
Proof.
  rewrite main_keeps, build_catalog_keeps. eexists. eexists.
  split; [reflexivity|]. split; [reflexivity|].
  split; [reflexivity|]. split; [reflexivity|].
  rewrite <- (Permutation_length (list_sort_perm name (flat_map keeps all))).
  apply flat_map_keeps_length.
Qed.

(* ----------------------------------------------------------------- *)
(** *** The sort is the stable sort *)

Section stable_sort.
Context {A : Type}.
Variable key : A -> string.

Lemma filter_key_head (k : string) (a : A) (l : list A) :
  key a = k ->
  filter (fun x => String.eqb (key x) k) (a :: l)
  = a :: filter (fun x => String.eqb (key x) k) l.
Proof. intros <-. cbn [filter]. now rewrite String.eqb_refl. Qed.

(** A sorted list is determined by the sub-lists of its keys. *)
Lemma stable_sorted_unique (l1 l2 : list A) :
  StronglySorted (key_le key) l1 -> StronglySorted (key_le key) l2 ->
  (forall k, filter (fun x => String.eqb (key x) k) l1
             = filter (fun x => String.eqb (key x) k) l2) ->
  l1 = l2.
Proof.
  revert l2. induction l1 as [|a r1 IH]; intros l2 S1 S2 H.
  - destruct l2 as [|b r2]; [reflexivity|].
    specialize (H (key b)). rewrite (filter_key_head _ b) in H by reflexivity.
    discriminate.
  - destruct l2 as [|b r2].
    { specialize (H (key a)).
      rewrite (filter_key_head _ a) in H by reflexivity. discriminate. }
    inversion S1 as [|? ? S1' F1]; subst.
    inversion S2 as [|? ? S2' F2]; subst.
    rewrite Forall_forall in F1, F2.
    assert (Hba : key_le key b a).
    { pose proof (H (key a)) as Ha.
      rewrite (filter_key_head _ a) in Ha by reflexivity.
      assert (Hin : In a (b :: r2)).
      { eapply (proj1 (filter_In _ _ _)). rewrite <- Ha. now left. }
      destruct Hin as [<- | Hin]; [apply string_leb_refl | now apply F2]. }
    assert (Hab : key_le key a b).
    { pose proof (H (key b)) as Hb.
      rewrite (filter_key_head (key b) b r2) in Hb by reflexivity.
      assert (Hin : In b (a :: r1)).
      { eapply (proj1 (filter_In _ _ _)). rewrite Hb. now left. }
      destruct Hin as [<- | Hin]; [apply string_leb_refl | now apply F1]. }
    assert (Hk : key a = key b) by now apply String.leb_antisym.
    pose proof (H (key a)) as Ha.
    rewrite (filter_key_head _ a) in Ha by reflexivity.
    rewrite (filter_key_head _ b) in Ha by (now symmetry).
    injection Ha as <- _. f_equal. apply IH; trivial.
    intros k. specialize (H k). cbn [filter] in H.
    destruct (String.eqb (key a) k); [now injection H | exact H].
Qed.

Lemma list_sort_append (l1 l2 : list A) :
  list_sort String.ltb key (l1 ++ l2)
  = list_sort String.ltb key
      (list_sort String.ltb key l1 ++ list_sort String.ltb key l2).
Proof.
  apply stable_sorted_unique; try apply list_sort_sorted.
  intros k. rewrite !list_sort_stable, !filter_app.
  now rewrite !list_sort_stable.
Qed.
End stable_sort.

(** X6. The sort by name is stable and nothing else: records with the same
    name stay in the order in which the loop collected them, and the catalog
    is the only list in ascending order of names with that property. *)
Theorem catalog_stable_order (all : list Enzyme) :
  exists collected enzymes,
    for_loop all [] = Ok collected /\
    build_catalog all = Ok enzymes /\
    (forall k, named k enzymes = named k collected) /\
    (forall other,
        StronglySorted name_le other ->
        (forall k, named k other = named k collected) ->
        other = enzymes).
Proof.
  rewrite for_loop_keeps, build_catalog_keeps. cbn [app].
  eexists. eexists. split; [reflexivity|]. split; [reflexivity|]. split.
  - intros k. apply list_sort_stable.
  - intros other Hs Hk. apply (stable_sorted_unique name); trivial.
    + apply list_sort_sorted.
    + intros k. unfold named in Hk. rewrite Hk. symmetry.
      apply list_sort_stable.
Qed.

Lemma catalog_stable_order_witness :
  exists enzymes,
    build_catalog [SmaI; EcoRI] = Ok enzymes /\
    list_sort String.ltb name enzymes = enzymes.
Proof.
  destruct (catalog_stable_order [SmaI; EcoRI])
    as (collected & enzymes & Hc & Hb & Hst & Huniq).
  exists enzymes. split; [exact Hb|].
  apply Huniq.
  - apply list_sort_sorted.
  - intros k. unfold named. rewrite list_sort_stable. apply Hst.
Defined.

(** X7. Catalogs merge: the catalog of two inputs put one after the other
    is what sorting the two catalogs, one after the other, gives; and the
    loop over the joined input is the loop over the second part started
    from the list the first part leaves. *)
Theorem catalog_of_append (a b : list Enzyme) :
  (forall enzymes,
      for_loop (a ++ b) enzymes
      = (collected <- for_loop a enzymes ;; for_loop b collected)) /\
  exists ca cb cab,
    build_catalog a = Ok ca /\
    build_catalog b = Ok cb /\
    build_catalog (a ++ b) = Ok cab /\
    cab = list_sort String.ltb name (ca ++ cb).
Proof.
  split.
  - intros enzymes. rewrite !for_loop_keeps. cbn [bind].
    rewrite for_loop_keeps, flat_map_app. now rewrite app_assoc.
  - rewrite !build_catalog_keeps. eexists. eexists. eexists.
    split; [reflexivity|]. split; [reflexivity|]. split; [reflexivity|].
    rewrite flat_map_app. apply list_sort_append.
Qed.

(* ================================================================= *)
(** ** Further properties of the generated text *)

Lemma all_printable_append (a b : string) :
  all_printable (a ++ b) = all_printable a && all_printable b.
Proof.
  induction a as [|c a IH]; [reflexivity|].
  cbn [append all_printable]. now rewrite IH, andb_assoc.
Qed.

Lemma all_printable_concat (sep : string) (l : list string) :
  all_printable sep = true ->
  Forall (fun s => all_printable s = true) l ->
  all_printable (String.concat sep l) = true.
Proof.
  intros Hsep. induction 1 as [|x r Hx Hr IH]; [reflexivity|].
  destruct r as [|y r]; [exact Hx|].
  rewrite concat_cons2, !all_printable_append. now rewrite Hx, Hsep, IH.
Qed.

Lemma escape_char_printable (c : ascii) :
  all_printable (escape_char c) = true.
Proof. destruct c as [[] [] [] [] [] [] [] []]; reflexivity. Qed.

Lemma encode_basestring_ascii_printable (s : string) :
  all_printable (encode_basestring_ascii s) = true.
Proof.
  unfold encode_basestring_ascii. cbn [all_printable].
  rewrite all_printable_append.
  assert (H : all_printable (escape_body s) = true).
  { induction s as [|c s IH]; [reflexivity|].
    cbn [escape_body]. rewrite all_printable_append.
    now rewrite escape_char_printable, IH. }
  now rewrite H.
Qed.

Lemma string_of_uint_printable (d : uint) :
  all_printable (NilEmpty.string_of_uint d) = true.
Proof. induction d; cbn; trivial. Qed.

Lemma repr_int_printable (z : Z) : all_printable (repr_int z) = true.
Proof.
  unfold repr_int.
  assert (H : forall d, all_printable (NilZero.string_of_uint d) = true).
  { intros d. destruct d; try reflexivity;
      apply (string_of_uint_printable (_ d)). }
  destruct (Z.to_int z) as [d|d]; cbn [NilZero.string_of_int all_printable];
    [apply H | now rewrite H].
Qed.

Lemma newline_indent_printable (level : nat) :
  all_printable (newline_indent level) = true.
Proof.
  unfold newline_indent. rewrite all_printable_append.
  induction level as [|n IH]; [reflexivity|].
  cbn [indent_str]. rewrite all_printable_append. exact IH.
Qed.

Lemma iterencode_printable (v : PyVal) (level : nat) :
  all_printable (iterencode level v) = true.
Proof.
  revert level.
  induction v as [|b|z|s|l IH|d IH] using PyVal_nested_ind; intros level.
  - reflexivity.
  - now destruct b.
  - apply repr_int_printable.
  - apply encode_basestring_ascii_printable.
  - destruct l as [|x l]; [reflexivity|].
    rewrite <- (append_empty_r (iterencode level _)), iterencode_list.
    cbn [all_printable]. rewrite !all_printable_append.
    rewrite !newline_indent_printable, all_printable_concat; trivial.
    + cbn [all_printable]. now rewrite newline_indent_printable.
    + apply Forall_map. eapply Forall_impl; [|exact IH]. intros y Hy. apply Hy.
  - destruct d as [|kv d]; [reflexivity|].
    rewrite <- (append_empty_r (iterencode level _)), iterencode_dict.
    cbn [all_printable]. rewrite !all_printable_append.
    rewrite !newline_indent_printable, all_printable_concat; trivial.
    + cbn [all_printable]. now rewrite newline_indent_printable.
    + apply Forall_map. eapply Forall_impl; [|exact IH].
      intros y Hy. unfold member_text. rewrite !all_printable_append.
      now rewrite encode_basestring_ascii_printable, Hy.
Qed.

(** X8. Whatever the names, sites and suppliers contain, the generated text
    is plain ASCII: every character is a newline or a printable character
    between the space and the tilde, because the encoder escapes all the
    others. *)
Theorem generate_typescript_ascii (enzymes : list enzyme_data) :
  all_printable (generate_typescript enzymes) = true.
Proof.
  rewrite generate_typescript_split, !all_printable_append.
  unfold json_dumps. now rewrite iterencode_printable.
Qed.






Lemma string_leb_neq_ltb (a b : string) :
  String.leb a b = true -> a <> b -> String.ltb a b = true.
Proof.
  unfold String.leb, String.ltb. intros Hle Hne.
  destruct (String.compare a b) eqn:E; try reflexivity; try discriminate.
  now apply String.compare_eq_iff in E.
Qed.

Lemma sorted_nodup_strict (l : list enzyme_data) :
  StronglySorted name_le l -> NoDup (map name l) ->
  StronglySorted (fun a b => String.ltb (name a) (name b) = true) l.
Proof.
  induction 1 as [|a r Hs IH Hall]; intros Hnd; [constructor|].
  inversion Hnd as [|? ? Hnotin Hnd']; subst.
  constructor; [now apply IH|].
  rewrite Forall_forall in Hall |- *. intros b Hb.
  apply string_leb_neq_ltb; [now apply Hall|].
  intros E. apply Hnotin. rewrite E. now apply in_map.
Qed.

(** X10. When no two entries of the input share a name, the names of the
    catalog are strictly ascending: each record's name is smaller than the
    name of every record after it, so no name occurs twice in the output. *)
Theorem catalog_strictly_sorted (all : list Enzyme) :
  NoDup (map str all) ->
  exists enzymes,
    build_catalog all = Ok enzymes /\
    StronglySorted (fun a b => String.ltb (name a) (name b) = true) enzymes /\
    NoDup (map name enzymes).
Proof.
  intros Hnd. rewrite build_catalog_keeps. eexists. split; [reflexivity|].
  assert (Hn : NoDup (map name
                        (list_sort String.ltb name (flat_map keeps all)))).
  { eapply Permutation_NoDup; [apply Permutation_map, list_sort_perm|].
    now apply keeps_names. }
  split; [|exact Hn].
  apply sorted_nodup_strict; [apply list_sort_sorted | exact Hn].
Qed.

Lemma catalog_strictly_sorted_witness :
  NoDup (map str [SmaI; NoCut; EcoRI]) /\
  exists enzymes,
    build_catalog [SmaI; NoCut; EcoRI] = Ok enzymes /\
    NoDup (map name enzymes).
Proof.
  assert (H : NoDup (map str [SmaI; NoCut; EcoRI]))
    by (repeat constructor; simpl; intuition discriminate).
  split; [exact H|].
  destruct (catalog_strictly_sorted [SmaI; NoCut; EcoRI] H)
    as (enzymes & Hb & _ & Hn).
  exists enzymes. now split.
Defined.
